(** * Session handling of the Discord assistant bot (bot.py)

    A shallow embedding of the conversation-session code of [bot.py]:
    the thread cache ([thread_cache]), the MySQL table [user_threads], the
    set [active_threads], the functions [save_thread], [get_thread_id],
    [reset_thread_cache], [handle_user_message] and [send_long_message].

    Python coroutines are embedded as state transformers over a [World]
    that holds the module-level globals, the database table and the
    scripted answers of the external services.  One call of a function of
    this file is one uninterrupted execution of the coroutine. *)

From Stdlib Require Import ZArith Ascii.
From Stdlib Require String.
From stdpp Require Import base option list gmap strings fin_maps.

Local Open Scope Z_scope.

(** ** Python values *)

(** [needle in hay] on Python strings. *)
Fixpoint contains (needle hay : string) : bool :=
  if String.prefix needle hay then true
  else match hay with
       | EmptyString => false
       | String _ hay' => contains needle hay'
       end.

(** Truth value of a string: only the empty string is false. *)
Definition truthy (s : string) : bool :=
  match s with EmptyString => false | String _ _ => true end.

(** [range(0, stop, step)] for a positive [step]: CPython computes its
    length as [(stop + step - 1) // step]. *)
Definition py_range0 (stop step : nat) : list nat :=
  (λ k, k * step)%nat <$> seq 0 ((stop + step - 1) / step)%nat.

(** The slice [text[i:i + n]]. *)
Definition slice (text : string) (i n : nat) : string :=
  String.substring i n text.

Definition join_chunks (chunks : list string) : string :=
  foldr String.append EmptyString chunks.

(** ** Data *)

(** One element of [content_data]. *)
Inductive part :=
| TextPart (text : string)
| ImageFilePart (file_id : string).

(** The [usage] attribute of a run. *)
Record Usage := mkUsage {
  prompt_tokens : Z;
  completion_tokens : Z;
  total_tokens : Z }.

(** The object returned by [runs.create_and_poll]; a missing attribute is
    [None]. *)
Record Run := mkRun {
  run_model : option string;
  run_usage : option Usage }.

(** An entry of [messages.data]: role and [content[0].text.value]. *)
Record ThreadMessage := mkThreadMessage {
  tm_role : string;
  tm_text : string }.

(** An attachment together with what the outside world answers for it: the
    extension [os.path.splitext(filename)[1]] of the lower-cased file name,
    the HTTP status of the download, the result of the upload to the
    backend ([None]: the upload raised) and the text extracted from a
    document. *)
Record Attachment := mkAttachment {
  att_filename : string;
  att_ext : string;
  att_status : Z;
  att_upload : option string;
  att_text : string }.

Record Message := mkMessage {
  from_bot : bool;
  is_dm : bool;
  author_id : string;
  author_name : string;
  author_display_name : string;
  content : string;
  attachments : list Attachment }.

(** What the code does to the outside, in the order it happens.  The
    [ok] flag of a database event tells whether the statement committed. *)
Inductive event :=
| DbUserLookup (user_id username display_name : string) (ok : bool)
| DbSelectThread (user_id : string) (ok : bool)
| DbUpsertThread (user_id thread_id : string) (ok : bool)
| DbSelectStale (ok : bool)
| DbLogTokens (user_id thread_id model : string) (u : Usage) (ok : bool)
| ThreadsCreate (res : option string)
| FilesCreate (filename : string) (res : option string)
| MessagesCreate (thread_id : string) (content_data : list part)
    (err : option string)
| RunsCreateAndPoll (thread_id : string) (ok : bool)
| MessagesList (thread_id : string) (ok : bool)
| ChannelSend (text : string).

(** The globals of the module, the table [user_threads] (user_id to
    thread_id and last_used, in seconds), the database clock, and the
    answers the outside world will give: the head of each script answers
    the next call.  [db_faults]: [true] makes the next statement raise (an
    empty script: no fault); [create_results]: the id of the next created
    thread, [None] raises; [send_results]: [Some msg] makes the next
    [messages.create] raise an exception whose text is [msg]; for runs and
    message lists [None] raises. *)
Record World := mkWorld {
  thread_cache : gmap string string;
  active_threads : gset string;
  user_threads : gmap string (string * Z);
  clock : Z;
  db_faults : list bool;
  create_results : list (option string);
  send_results : list (option string);
  run_results : list (option Run);
  list_results : list (option (list ThreadMessage));
  trace : list event }.

Definition set_thread_cache (c : gmap string string) (w : World) : World :=
  mkWorld c (active_threads w) (user_threads w) (clock w) (db_faults w)
    (create_results w) (send_results w) (run_results w) (list_results w)
    (trace w).

Definition set_active_threads (a : gset string) (w : World) : World :=
  mkWorld (thread_cache w) a (user_threads w) (clock w) (db_faults w)
    (create_results w) (send_results w) (run_results w) (list_results w)
    (trace w).

Definition set_user_threads (t : gmap string (string * Z)) (w : World)
  : World :=
  mkWorld (thread_cache w) (active_threads w) t (clock w) (db_faults w)
    (create_results w) (send_results w) (run_results w) (list_results w)
    (trace w).

Definition set_db_faults (f : list bool) (w : World) : World :=
  mkWorld (thread_cache w) (active_threads w) (user_threads w) (clock w) f
    (create_results w) (send_results w) (run_results w) (list_results w)
    (trace w).

Definition set_create_results (r : list (option string)) (w : World)
  : World :=
  mkWorld (thread_cache w) (active_threads w) (user_threads w) (clock w)
    (db_faults w) r (send_results w) (run_results w) (list_results w)
    (trace w).

Definition set_send_results (r : list (option string)) (w : World) : World :=
  mkWorld (thread_cache w) (active_threads w) (user_threads w) (clock w)
    (db_faults w) (create_results w) r (run_results w) (list_results w)
    (trace w).

Definition set_run_results (r : list (option Run)) (w : World) : World :=
  mkWorld (thread_cache w) (active_threads w) (user_threads w) (clock w)
    (db_faults w) (create_results w) (send_results w) r (list_results w)
    (trace w).

Definition set_list_results (r : list (option (list ThreadMessage)))
  (w : World) : World :=
  mkWorld (thread_cache w) (active_threads w) (user_threads w) (clock w)
    (db_faults w) (create_results w) (send_results w) (run_results w) r
    (trace w).

Definition log (e : event) (w : World) : World :=
  mkWorld (thread_cache w) (active_threads w) (user_threads w) (clock w)
    (db_faults w) (create_results w) (send_results w) (run_results w)
    (list_results w) (trace w ++ [e]).

(** ** Control flow: a state monad with [return] and exceptions *)

(** How a block of statements ends: it falls through with a value, it
    executes [return], or it raises an exception with text [msg]. *)
Inductive outcome (A : Type) :=
| Normal (a : A)
| Returned
| Raised (msg : string).
Arguments Normal {A} a.
Arguments Returned {A}.
Arguments Raised {A} msg.

Definition M (A : Type) : Type := World → outcome A * World.

Definition ret {A} (a : A) : M A := λ w, (Normal a, w).

Definition bind {A B} (m : M A) (k : A → M B) : M B :=
  λ w, match m w with
       | (Normal a, w') => k a w'
       | (Returned, w') => (Returned, w')
       | (Raised e, w') => (Raised e, w')
       end.

Notation "x <- m ;; k" := (bind m (λ x, k))
  (at level 100, m at next level, right associativity).
Notation "m >> k" := (bind m (λ _, k))
  (at level 100, right associativity).

(** The statement [return]. *)
Definition py_return {A} : M A := λ w, (Returned, w).

Definition raise {A} (msg : string) : M A := λ w, (Raised msg, w).

(** [try: body / except Exception as e: handler(e)]; a [return] in the
    body leaves the block untouched. *)
Definition try_except {A} (body : M A) (handler : string → M A) : M A :=
  λ w, match body w with
       | (Raised e, w') => handler e w'
       | r => r
       end.

(** A called function that executes [return] gives [None] to its caller. *)
Definition call (body : M unit) : M unit :=
  λ w, match body w with
       | (Returned, w') => (Normal tt, w')
       | r => r
       end.

Definition get {A} (f : World → A) : M A := λ w, (Normal (f w), w).
Definition modify (f : World → World) : M unit := λ w, (Normal tt, f w).

(** ** The outside world *)

(** One statement on the database connection: it raises when the head of
    [db_faults] says so, and commits [effect] otherwise. *)
Definition db_execute (ev : bool → event) (effect : World → World) : M unit :=
  λ w, let w1 := set_db_faults (tail (db_faults w)) w in
       match head (db_faults w) with
       | Some true => (Raised "database error", log (ev false) w1)
       | _ => (Normal tt, log (ev true) (effect w1))
       end.

(** [client.beta.threads.create()]. *)
Definition threads_create : M string :=
  λ w, let w1 := set_create_results (tail (create_results w)) w in
       match head (create_results w) with
       | Some (Some t) => (Normal t, log (ThreadsCreate (Some t)) w1)
       | _ => (Raised "thread creation failed", log (ThreadsCreate None) w1)
       end.

(** [client.beta.threads.messages.create(thread_id, role="user", content)]. *)
Definition messages_create (thread_id : string) (content_data : list part)
  : M unit :=
  λ w, let w1 := set_send_results (tail (send_results w)) w in
       match head (send_results w) with
       | Some (Some e) =>
           (Raised e, log (MessagesCreate thread_id content_data (Some e)) w1)
       | _ => (Normal tt, log (MessagesCreate thread_id content_data None) w1)
       end.

(** [client.beta.threads.runs.create_and_poll(thread_id, ...)]. *)
Definition runs_create_and_poll (thread_id : string) : M Run :=
  λ w, let w1 := set_run_results (tail (run_results w)) w in
       match head (run_results w) with
       | Some (Some r) => (Normal r, log (RunsCreateAndPoll thread_id true) w1)
       | _ => (Raised "run failed", log (RunsCreateAndPoll thread_id false) w1)
       end.

(** [client.beta.threads.messages.list(thread_id, order="desc", limit=1)]. *)
Definition messages_list (thread_id : string) : M (list ThreadMessage) :=
  λ w, let w1 := set_list_results (tail (list_results w)) w in
       match head (list_results w) with
       | Some (Some d) => (Normal d, log (MessagesList thread_id true) w1)
       | _ => (Raised "list failed", log (MessagesList thread_id false) w1)
       end.

(** [message.channel.send(text)]; the chat platform is taken to accept
    every message. *)
Definition channel_send (text : string) : M unit :=
  modify (log (ChannelSend text)).

(** ** The texts sent to the user *)

Definition MSG_UNSUPPORTED : string :=
  "⚠️ Unsupported file type detected. Please upload one of the supported formats:
📄 Documents: .pdf, .docx, .xlsx, .txt, .rtf
🖼️ Images: .png, .jpg, .jpeg, .gif, .webp".
Definition MSG_IMAGE_DOWNLOAD : string :=
  "⚠️ Image download failed. Please try again.".
Definition MSG_IMAGE_UPLOAD : string := "⚠️ Image upload failed.".
Definition MSG_FILE_DOWNLOAD : string :=
  "⚠️ File download failed. Please try again.".
Definition MSG_NO_CONTENT : string :=
  "⚠️ No readable content found in the file.".
Definition MSG_NO_INPUT : string :=
  "⚠️ Please send a message, an image, or a supported file.".
Definition MSG_SEND_FAILED_AI : string :=
  "⚠️ Message could not be sent to AI. Please try again later.".
Definition MSG_SEND_FAILED_CALI : string :=
  "⚠️ Message could not be sent to Cali. Please try again later.".
Definition MSG_NO_RESPONSE : string := "⚠️ No response from the assistant.".

(** The text the code looks for in a failed send. *)
Definition NO_THREAD_FOUND : string := "No thread found with id".

(** ** The program *)

Definition STALE_SECONDS : Z := 24 * 3600.

(** [save_thread(user_id, thread_id)]: the cache is written first, then
    the row is inserted or updated with [last_used = CURRENT_TIMESTAMP];
    an exception of the database is caught and printed. *)
Definition save_thread (user_id thread_id : string) : M unit :=
  try_except
    (modify (λ w, set_thread_cache (<[user_id := thread_id]> (thread_cache w)) w) >>
     db_execute (DbUpsertThread user_id thread_id)
       (λ w, set_user_threads (<[user_id := (thread_id, clock w)]> (user_threads w)) w))
    (λ _, ret tt).

(** [get_thread_id(user_id)]: the cache first, then the table; a row found
    is put into the cache.  No exception is caught here. *)
Definition get_thread_id (user_id : string) : M (option string) :=
  cache <- get thread_cache ;;
  match cache !! user_id with
  | Some thread_id => ret (Some thread_id)
  | None =>
      db_execute (DbSelectThread user_id) id >>
      table <- get user_threads ;;
      match table !! user_id with
      | Some (thread_id, _) =>
          modify (λ w, set_thread_cache (<[user_id := thread_id]> (thread_cache w)) w) >>
          ret (Some thread_id)
      | None => ret None
      end
  end.

(** [update_username_lookup]: one statement on the table [user_lookup],
    exceptions caught and printed. *)
Definition update_username_lookup (user_id username display_name : string)
  : M unit :=
  try_except (db_execute (DbUserLookup user_id username display_name) id)
    (λ _, ret tt).

(** [log_token_usage]: one insert into [token_tracking], exceptions caught
    and printed. *)
Definition log_token_usage (user_id thread_id model : string) (u : Usage)
  : M unit :=
  try_except (db_execute (DbLogTokens user_id thread_id model u) id)
    (λ _, ret tt).

(** The rows of [SELECT user_id FROM user_threads WHERE last_used < NOW() -
    INTERVAL 24 HOUR]. *)
Definition is_stale (now : Z) (row : string * Z) : bool :=
  bool_decide (row.2 < now - STALE_SECONDS).

Definition stale_users (w : World) : list string :=
  (map_to_list (filter (λ kv, is_stale (clock w) kv.2 = true) (user_threads w))).*1.

(** [if user_id in thread_cache: del thread_cache[user_id]] for each row. *)
Definition evict (user_ids : list string) (cache : gmap string string)
  : gmap string string :=
  foldl (λ c user_id, if bool_decide (user_id ∈ dom c) then delete user_id c else c)
    cache user_ids.

(** One round of the loop of [reset_thread_cache], after the sleep. *)
Definition reset_thread_cache_cycle : M unit :=
  try_except
    (db_execute DbSelectStale id >>
     results <- get stale_users ;;
     modify (λ w, set_thread_cache (evict results (thread_cache w)) w))
    (λ _, ret tt).

(** [send_long_message(channel, text)]. *)
Definition max_length : nat := 2000.

Definition message_chunks (text : string) : list string :=
  (λ i, slice text i max_length) <$> py_range0 (String.length text) max_length.

Fixpoint send_all (chunks : list string) : M unit :=
  match chunks with
  | [] => ret tt
  | chunk :: rest => channel_send chunk >> send_all rest
  end.

Definition send_long_message (text : string) : M unit :=
  send_all (message_chunks text).

(** The file types.  The extension is the end of the file name, so the
    tests [filename.endswith(...)] of the code agree with these. *)
Definition IMAGE_EXTENSIONS : list string :=
  [".png"; ".jpg"; ".jpeg"; ".gif"; ".webp"].
Definition DOCUMENT_EXTENSIONS : list string :=
  [".pdf"; ".docx"; ".xlsx"; ".txt"; ".rtf"].
Definition ALLOWED_EXTENSIONS : list string :=
  DOCUMENT_EXTENSIONS ++ IMAGE_EXTENSIONS.

Definition has_ext (exts : list string) (ext : string) : bool :=
  bool_decide (ext ∈ exts).

(** The loop over [message.attachments], building [content_data]. *)
Fixpoint handle_attachments (atts : list Attachment) (content_data : list part)
  : M (list part) :=
  match atts with
  | [] => ret content_data
  | a :: rest =>
      if negb (has_ext ALLOWED_EXTENSIONS (att_ext a)) then
        channel_send MSG_UNSUPPORTED >> py_return
      else if has_ext IMAGE_EXTENSIONS (att_ext a) then
        if bool_decide (att_status a = 200) then
          modify (log (FilesCreate (att_filename a) (att_upload a))) >>
          match att_upload a with
          | Some file_id =>
              handle_attachments rest
                (content_data ++ [ImageFilePart file_id; ImageFilePart file_id])
          | None => channel_send MSG_IMAGE_UPLOAD >> py_return
          end
        else channel_send MSG_IMAGE_DOWNLOAD >> py_return
      else
        if bool_decide (att_status a = 200) then
          if truthy (att_text a) then
            handle_attachments rest (content_data ++ [TextPart (att_text a)])
          else
            channel_send MSG_NO_CONTENT >> handle_attachments rest content_data
        else channel_send MSG_FILE_DOWNLOAD >> py_return
  end.

(** Lines 452-482: the send with its two [try] blocks.  The handler of
    the outer block ([send_failed]) catches what the handler of the inner
    block raises: a failed [threads.create] or a failed second send.  It
    reads the local variable [thread_id], which is assigned once
    [threads.create] has returned: it discards the old id before that
    assignment and the new id after it.  [save_thread] and the channel
    raise nothing.  The result is the value of [thread_id] after the
    block. *)
Definition send_failed (thread_id : string) : M string :=
  channel_send MSG_SEND_FAILED_CALI >>
  modify (λ w, set_active_threads (active_threads w ∖ {[thread_id]}) w) >>
  py_return.

Definition send_with_retry (user_id thread_id : string)
    (content_data : list part) : M string :=
  try_except
    (messages_create thread_id content_data >> ret thread_id)
    (λ error_message,
       if contains NO_THREAD_FOUND error_message then
         new_id <- try_except threads_create (λ _, send_failed thread_id) ;;
         save_thread user_id new_id >>
         try_except (messages_create new_id content_data >> ret new_id)
           (λ _, send_failed new_id)
       else
         channel_send MSG_SEND_FAILED_AI >> ret thread_id).

(** Lines 499-523: the token usage of the run; nothing escapes the block. *)
Definition record_usage (user_id thread_id : string) (run : Run) : M unit :=
  try_except
    (match run_usage run with
     | Some u => log_token_usage user_id thread_id (default "unknown" (run_model run)) u
     | None => ret tt
     end)
    (λ _, ret tt).

(** Lines 536-540. *)
Definition assistant_reply (data : list ThreadMessage) : string :=
  match data with
  | m :: _ => if bool_decide (tm_role m = "assistant") then tm_text m else MSG_NO_RESPONSE
  | [] => MSG_NO_RESPONSE
  end.

(** Lines 324-543: the body of the [try] block of [handle_user_message]. *)
Definition process_message (m : Message) (user_id thread_id : string) : M unit :=
  content_data <- handle_attachments (attachments m)
                    (if truthy (content m) then [TextPart (content m)] else []) ;;
  match content_data with
  | [] => channel_send MSG_NO_INPUT >> py_return
  | _ :: _ =>
      active <- get active_threads ;;
      if bool_decide (thread_id ∈ active) then py_return
      else
        modify (λ w, set_active_threads (active_threads w ∪ {[thread_id]}) w) >>
        thread_id <- send_with_retry user_id thread_id content_data ;;
        run <- runs_create_and_poll thread_id ;;
        record_usage user_id thread_id run >>
        modify (λ w, set_active_threads (active_threads w ∖ {[thread_id]}) w) >>
        messages <- messages_list thread_id ;;
        send_long_message (assistant_reply messages)
  end.

(** Lines 310-321: the thread of the user is looked up, created when there
    is none, and saved. *)
Definition resolve_thread (user_id : string) : M string :=
  found <- get_thread_id user_id ;;
  thread_id <- match found with
               | Some t => if truthy t then ret t else threads_create
               | None => threads_create
               end ;;
  save_thread user_id thread_id >>
  ret thread_id.

(** [handle_user_message(message)]. *)
Definition handle_user_message (m : Message) : M unit :=
  call
    (if from_bot m then py_return
     else if is_dm m then
       update_username_lookup (author_id m) (author_name m) (author_display_name m) >>
       thread_id <- resolve_thread (author_id m) ;;
       try_except (process_message m (author_id m) thread_id) (λ _, ret tt)
     else ret tt).

(** ** The roles and the gate of [on_message] *)

(** A server the bot is in: [guild.get_member(id)] is the lookup of [id],
    and a member is the list of the names of its roles. *)
Record Guild := mkGuild {
  guild_name : string;
  guild_members : gmap string (list string) }.

Definition EVERYONE : string := "@everyone".

Definition ALLOWED_ROLES : gset string := {["Admin"]}.

Definition MSG_ACCESS_DENIED : string :=
  "🚫✨ **Access Denied**… for now! I'm still in *beta mode* 🧪 and only certain roles can chat with me right now. 
**Hang tight** — more access is coming soon! 💫🤖".

(** The inner loop of [update_bot_roles]: the names of the roles of the
    bot in one server, except [@everyone], are added. *)
Definition add_role_names (roles : list string) (acc : gset string)
  : gset string :=
  foldl (λ acc name, if bool_decide (name ≠ EVERYONE) then acc ∪ {[name]} else acc)
    acc roles.

(** [update_bot_roles()]: the value of [BOT_ROLES] after the call; the set
    is cleared first. *)
Definition update_bot_roles (bot_id : string) (guilds : list Guild)
  : gset string :=
  foldl (λ acc guild,
           match guild_members guild !! bot_id with
           | Some roles => add_role_names roles acc
           | None => acc
           end)
    ∅ guilds.

(** Lines 280-286: the roles of the author in the first server that knows
    the author ([break] after it). *)
Fixpoint first_member_roles (guilds : list Guild) (user_id : string)
  : gset string :=
  match guilds with
  | [] => ∅
  | guild :: rest =>
      match guild_members guild !! user_id with
      | Some roles => list_to_set roles
      | None => first_member_roles rest user_id
      end
  end.

(** What [on_message] does with a message: it ignores it, it answers with
    the denial, or it starts [handle_user_message] as a task. *)
Inductive decision := Ignored | Denied | Dispatched.

(** [on_message(message)]: the decision, the new value of [BOT_ROLES] and
    the world. *)
Definition on_message (bot_id : string) (guilds : list Guild) (m : Message)
    (BOT_ROLES : gset string) (w : World) : decision * gset string * World :=
  if from_bot m then (Ignored, BOT_ROLES, w)
  else
    let BOT_ROLES := update_bot_roles bot_id guilds in
    if negb (is_dm m) then (Ignored, BOT_ROLES, w)
    else
      let user_roles := first_member_roles guilds (author_id m) in
      if bool_decide (user_roles ∩ ALLOWED_ROLES ≠ ∅ ∨ user_roles ∩ BOT_ROLES ≠ ∅)
      then (Dispatched, BOT_ROLES, w)
      else (Denied, BOT_ROLES, log (ChannelSend MSG_ACCESS_DENIED) w).

(** ** The tables created at start-up *)

(** The database as [ensure_token_tracking_table] sees it: the names of
    the tables, the faults of the coming statements and the statements
    executed so far. *)
Record Schema := mkSchema {
  tables : gset string;
  schema_faults : list bool;
  statements : list string }.

(** One [cursor.execute] (with its commit): [None] when it raises. *)
Definition schema_execute (statement : string)
    (effect : gset string → gset string) (s : Schema) : option Schema :=
  match head (schema_faults s) with
  | Some true => None
  | _ => Some (mkSchema (effect (tables s)) (tail (schema_faults s))
                 (statements s ++ [statement]))
  end.

(** The state an exception leaves behind: the fault is consumed. *)
Definition schema_failed (s : Schema) : Schema :=
  mkSchema (tables s) (tail (schema_faults s)) (statements s).

(** [SHOW TABLES LIKE pattern], and [CREATE TABLE name] when no table
    matches; [inl] is the state in which a statement raised.  The pattern
    is the name itself, but the server reads it as a pattern: [like
    pattern table] says whether a table name matches, as the server and
    its collation decide ([_] stands for any one character). *)
Definition ensure_table (like : string → string → bool) (name : string)
    (s : Schema) : Schema + Schema :=
  match schema_execute ("SHOW TABLES LIKE '" +:+ name +:+ "'") id s with
  | None => inl (schema_failed s)
  | Some s1 =>
      if existsb (like name) (elements (tables s1)) then inr s1
      else match schema_execute ("CREATE TABLE " +:+ name) (λ t, t ∪ {[name]}) s1 with
           | None => inl (schema_failed s1)
           | Some s2 => inr s2
           end
  end.

(** [ensure_token_tracking_table()]: the two tables in turn; an exception
    ends the function (it is caught and printed). *)
Definition ensure_token_tracking_table (like : string → string → bool)
    (s : Schema) : Schema :=
  match ensure_table like "token_tracking" s with
  | inl failed => failed
  | inr s1 =>
      match ensure_table like "user_lookup" s1 with
      | inl failed => failed
      | inr s2 => s2
      end
  end.


(** A matcher with the wildcards of SQL, [_] for one character and [%]
    for any number of them, that compares the other characters as they
    are. *)
Fixpoint like_match (pattern name : string) : bool :=
  match pattern with
  | EmptyString => match name with EmptyString => true | String _ _ => false end
  | String c pattern' =>
      if Ascii.eqb c "%" then
        (fix any (name : string) : bool :=
           like_match pattern' name
           || match name with
              | EmptyString => false
              | String _ name' => any name'
              end) name
      else match name with
           | EmptyString => false
           | String d name' =>
               (Ascii.eqb c "_" || Ascii.eqb c d) && like_match pattern' name'
           end
  end.

(** ** Notions used in the statements *)

(** The next statement on the database succeeds. *)
Definition db_ok (w : World) : bool :=
  negb (default false (head (db_faults w))).

(** Whether the upsert of a resolution commits: it is the first statement
    on the database after a cache hit and the second, after the select,
    after a cache miss. *)
Definition upsert_ok (u : string) (w : World) : bool :=
  match thread_cache w !! u with
  | Some _ => db_ok w
  | None => db_ok (set_db_faults (tail (db_faults w)) w)
  end.

(** The next [n] statements on the database succeed. *)
Definition store_available (n : nat) (w : World) : bool :=
  forallb negb (take n (db_faults w)).

(** The world [save_thread] leaves behind. *)
Definition after_save (u t : string) (w : World) : World :=
  log (DbUpsertThread u t (db_ok w))
    ((if db_ok w
      then set_user_threads (<[u := (t, clock w)]> (user_threads w))
      else id)
       (set_db_faults (tail (db_faults w))
          (set_thread_cache (<[u := t]> (thread_cache w)) w))).

(** The world after the events [evs] have been added to the trace. *)
Definition emit (evs : list event) (w : World) : World :=
  foldl (λ w e, log e w) w evs.

(** The texts about the input itself, which are sent before the code looks
    at [active_threads]. *)
Definition INPUT_NOTICES : list string :=
  [MSG_UNSUPPORTED; MSG_IMAGE_DOWNLOAD; MSG_IMAGE_UPLOAD; MSG_FILE_DOWNLOAD;
   MSG_NO_CONTENT; MSG_NO_INPUT].

Definition input_event (e : event) : Prop :=
  match e with
  | FilesCreate _ _ => True
  | ChannelSend text => text ∈ INPUT_NOTICES
  | _ => False
  end.

(** An attachment the loop accepts: an allowed type, downloaded, and an
    upload that worked (image) or a text that is not empty (document). *)
Definition accepted (a : Attachment) : Prop :=
  has_ext ALLOWED_EXTENSIONS (att_ext a) = true
  ∧ att_status a = 200
  ∧ if has_ext IMAGE_EXTENSIONS (att_ext a) then is_Some (att_upload a)
    else truthy (att_text a) = true.

(** What an accepted attachment adds to [content_data]. *)
Definition attachment_parts (a : Attachment) : list part :=
  if has_ext IMAGE_EXTENSIONS (att_ext a) then
    match att_upload a with
    | Some file_id => [ImageFilePart file_id; ImageFilePart file_id]
    | None => []
    end
  else [TextPart (att_text a)].

(** The upload of an image is the only thing the outside sees of an
    accepted attachment. *)
Definition attachment_events (a : Attachment) : list event :=
  if has_ext IMAGE_EXTENSIONS (att_ext a)
  then [FilesCreate (att_filename a) (att_upload a)] else [].

(** The insert into [token_tracking] for a run that reports its usage. *)
Definition usage_events (user_id thread_id : string) (run : Run) (ok : bool)
  : list event :=
  match run_usage run with
  | Some u => [DbLogTokens user_id thread_id (default "unknown" (run_model run)) u ok]
  | None => []
  end.

(** The two tables [ensure_token_tracking_table] may create. *)
Definition NEW_TABLES : gset string := {["token_tracking"; "user_lookup"]}.


(** ** Scenarios *)

Definition hello : Message := mkMessage false true "U1" "bob" "Bob" "hello" [].

Definition a_run : Run := mkRun (Some "gpt-4o") (Some (mkUsage 12 30 42)).

Definition a_reply : list ThreadMessage := [mkThreadMessage "assistant" "hi bob"].

(** User U1 has thread T1 in the cache and in the table, last used at
    time 100; the time is 5000. *)
Definition known_user (sends : list (option string))
    (creates : list (option string)) (runs : list (option Run)) : World :=
  mkWorld {["U1" := "T1"]} ∅ {["U1" := ("T1", 100)]} 5000 [] creates sends runs
    [Some a_reply] [].

(** Nothing is known about U1; the backend will create thread T1. *)
Definition new_user (faults : list bool) : World :=
  mkWorld ∅ ∅ ∅ 5000 faults [Some "T1"] [] [Some a_run] [Some a_reply] [].

(** A request for T1, the thread of U1, is in flight. *)
Definition busy : World :=
  mkWorld {["U1" := "T1"]} {["T1"]} {["U1" := ("T1", 100)]} 5000 [] [] [] [] [] [].

(** A text with an attached text file that is empty. *)
Definition hello_with_empty_file : Message :=
  mkMessage false true "U1" "bob" "Bob" "hello"
    [mkAttachment "notes.txt" ".txt" 200 None ""].

(** U2 was last seen 25 hours ago, U3 one hour ago; both are cached. *)
Definition two_cached : World :=
  mkWorld {["U2" := "T2"; "U3" := "T3"]} ∅
    {["U2" := ("T2", 100000 - 25 * 3600); "U3" := ("T3", 100000 - 3600)]}
    100000 [] [] [] [] [] [].

(** The run of the backend fails after the message was sent. *)
Definition run_fails : outcome unit * World :=
  handle_user_message hello (known_user [] [] [None]).

(** The thread of the user has expired; the backend creates T2. *)
Definition STALE_ERROR : string := "No thread found with id 'T1'".

Definition thread_expired : outcome unit * World :=
  handle_user_message hello (known_user [Some STALE_ERROR] [Some "T2"] [Some a_run]).

(** The send fails for another reason. *)
Definition rate_limited : outcome unit * World :=
  handle_user_message hello (known_user [Some "Rate limit exceeded"] [] [Some a_run]).

(** The third statement on the database, the upsert, fails. *)
Definition upsert_fails : outcome unit * World :=
  handle_user_message hello (new_user [false; false; true]).

Definition second_message : outcome unit * World :=
  handle_user_message hello_with_empty_file busy.

(** The bot and U1 share the role Helper in the first server; U4 has only
    [@everyone] there and is Admin in the second server. *)
Definition plaza : Guild :=
  mkGuild "plaza"
    {["BOT" := ["@everyone"; "Helper"]; "U1" := ["@everyone"; "Helper"];
      "U4" := ["@everyone"]]}.

Definition annex : Guild :=
  mkGuild "annex" {["U4" := ["@everyone"; "Admin"]]}.

Definition lobby : Guild := mkGuild "lobby" ∅.

Definition hello_from (user_id : string) : Message :=
  mkMessage false true user_id "eve" "Eve" "hello" [].

Definition a_photo : Attachment := mkAttachment "cat.png" ".png" 200 (Some "file-1") "".

Definition a_note : Attachment := mkAttachment "todo.txt" ".txt" 200 None "buy milk".

Definition a_program : Attachment := mkAttachment "setup.exe" ".exe" 200 None "".

Definition hello_with (atts : list Attachment) : Message :=
  mkMessage false true "U1" "bob" "Bob" "hello" atts.

Definition nothing : Message := mkMessage false true "U1" "bob" "Bob" "" [].

(** A database with the table [user_threads] only. *)
Definition fresh_schema : Schema := mkSchema {["user_threads"]} [] [].

(** A database that has a table [tokenXtracking]. *)
Definition lookalike_schema : Schema := mkSchema {["tokenXtracking"]} [] [].

Ltac by_evaluation :=
  first [ vm_compute; reflexivity
        | apply bool_decide_unpack; vm_compute; exact I ].

Ltac unfold_m :=
  unfold bind, ret, get, modify, try_except, py_return, raise, call in *.


(** * Properties *)

(** ** Running a block: basic equations *)

Lemma bind_normal {A B} (m : M A) (k : A → M B) w a w' :
  m w = (Normal a, w') → bind m k w = k a w'.
Proof. intros H. unfold bind. by rewrite H. Qed.

Lemma bind_returned {A B} (m : M A) (k : A → M B) w w' :
  m w = (Returned, w') → bind m k w = (Returned, w').
Proof. intros H. unfold bind. by rewrite H. Qed.

Lemma bind_raised {A B} (m : M A) (k : A → M B) w e w' :
  m w = (Raised e, w') → bind m k w = (Raised e, w').
Proof. intros H. unfold bind. by rewrite H. Qed.

Lemma trace_log e w : trace (log e w) = trace w ++ [e].
Proof. done. Qed.

(** ** Chunks of a long message *)

Section chunks.
Local Open Scope nat_scope.

Lemma substring_take_drop n m s :
  String.list_ascii_of_string (String.substring n m s)
  = take m (drop n (String.list_ascii_of_string s)).
Proof.
  revert n m. induction s as [|c s IH]; intros [|n] [|m]; simpl; try done.
  all: by rewrite IH.
Qed.

Lemma list_ascii_of_append s1 s2 :
  String.list_ascii_of_string (String.append s1 s2)
  = String.list_ascii_of_string s1 ++ String.list_ascii_of_string s2.
Proof. induction s1 as [|c s1 IH]; simpl; [done | by rewrite IH]. Qed.

Lemma list_ascii_of_join chunks :
  String.list_ascii_of_string (join_chunks chunks)
  = concat (String.list_ascii_of_string <$> chunks).
Proof.
  induction chunks as [|c cs IH]; simpl; [done |].
  by rewrite list_ascii_of_append, IH.
Qed.

Lemma length_list_ascii s :
  length (String.list_ascii_of_string s) = String.length s.
Proof. induction s; simpl; congruence. Qed.

(** Cutting a list into [count] pieces of [step] elements loses nothing
    when the pieces cover the list. *)
Lemma pieces_cover {A} (step : nat) (l : list A) (count : nat) :
  length l ≤ count * step →
  concat ((λ k, take step (drop (k * step) l)) <$> seq 0 count) = l.
Proof.
  revert l. induction count as [|count IH]; intros l Hlen.
  - simpl in *. by destruct l; [|simpl in Hlen; lia].
  - rewrite <- cons_seq, <- fmap_S_seq. simpl.
    transitivity (take step l ++ drop step l); [| apply take_drop].
    f_equal. rewrite <- list_fmap_compose.
    etransitivity; [| apply (IH (drop step l))].
    + f_equal. apply list_fmap_ext. intros _ k _. simpl.
      by rewrite drop_drop.
    + rewrite length_drop. simpl in Hlen. lia.
Qed.

Lemma range_covers (n step : nat) :
  0 < step → n ≤ (n + step - 1) / step * step.
Proof.
  intros Hstep.
  pose proof (Nat.div_mod_eq (n + step - 1) step) as Hdiv.
  pose proof (Nat.mod_upper_bound (n + step - 1) step) as Hmod.
  nia.
Qed.

Lemma list_ascii_inj s1 s2 :
  String.list_ascii_of_string s1 = String.list_ascii_of_string s2 → s1 = s2.
Proof.
  intros H. rewrite <- (String.string_of_list_ascii_of_string s1).
  rewrite H. apply String.string_of_list_ascii_of_string.
Qed.

Lemma join_message_chunks text : join_chunks (message_chunks text) = text.
Proof.
  apply list_ascii_inj. rewrite list_ascii_of_join.
  unfold message_chunks, py_range0, slice.
  rewrite <- !list_fmap_compose.
  etransitivity;
    [| apply (pieces_cover max_length _
                ((String.length text + max_length - 1) / max_length))].
  - f_equal. apply list_fmap_ext. intros _ k _. simpl.
    apply substring_take_drop.
  - rewrite length_list_ascii. apply range_covers. unfold max_length. lia.
Qed.

Lemma message_chunks_bounded text :
  Forall (λ chunk, String.length chunk ≤ 2000) (message_chunks text).
Proof.
  unfold message_chunks, slice. apply Forall_fmap, Forall_forall.
  intros i _. simpl.
  rewrite <- length_list_ascii, substring_take_drop, length_take.
  unfold max_length. lia.
Qed.

Lemma send_all_trace chunks w :
  (send_all chunks w).1 = Normal tt
  ∧ trace (send_all chunks w).2 = trace w ++ (ChannelSend <$> chunks).
Proof.
  revert w. induction chunks as [|c cs IH]; intros w; simpl.
  - by rewrite app_nil_r.
  - unfold bind, channel_send, modify. destruct (IH (log (ChannelSend c) w)) as [-> ->].
    split; [done |]. by rewrite trace_log, <- app_assoc.
Qed.
End chunks.

(** C10. For every text, [send_long_message] falls through after sending
    to the channel exactly the chunks [text[i:i+2000]] in order; each
    chunk has at most 2000 characters, the chunks joined give back the
    text, and the empty text gives no chunk. *)
Theorem send_long_message_chunks (text : string) (w : World) :
  (send_long_message text w).1 = Normal tt
  ∧ trace (send_long_message text w).2
    = trace w ++ (ChannelSend <$> message_chunks text)
  ∧ Forall (λ chunk, (String.length chunk ≤ 2000)%nat) (message_chunks text)
  ∧ join_chunks (message_chunks text) = text
  ∧ message_chunks EmptyString = [].
Proof.
  destruct (send_all_trace (message_chunks text) w) as [Hres Htrace].
  split; [exact Hres |]. split; [exact Htrace |].
  split; [apply message_chunks_bounded |].
  split; [apply join_message_chunks | reflexivity].
Qed.

(** ** Saving and resolving a thread *)

Lemma save_thread_run u t w : save_thread u t w = (Normal tt, after_save u t w).
Proof.
  unfold save_thread, db_execute, after_save, db_ok. unfold_m. simpl.
  by destruct (db_faults w) as [|[] fs].
Qed.


Ltac case_step :=
  match goal with
  | |- context [save_thread ?u ?t ?w] => rewrite (save_thread_run u t w)
  | |- context [truthy ?t] => destruct (truthy t) eqn:?
  | |- context [head (?f ?w)] => destruct (f w) as [|? ?] eqn:?
  | |- context [@lookup _ _ (gmap _ _) _ ?k ?m] => destruct (m !! k) as [?|] eqn:?
  | |- context [match ?x with _ => _ end] => is_var x; destruct x
  end; simpl in *.


Lemma after_save_cache u t w : thread_cache (after_save u t w) = <[u := t]> (thread_cache w).
Proof. unfold after_save. by destruct (db_ok w). Qed.

Lemma after_save_table u t w :
  user_threads (after_save u t w)
  = if db_ok w then <[u := (t, clock w)]> (user_threads w) else user_threads w.
Proof. unfold after_save. by destruct (db_ok w). Qed.

Lemma after_save_trace u t w :
  trace (after_save u t w) = trace w ++ [DbUpsertThread u t (db_ok w)].
Proof. unfold after_save. by destruct (db_ok w). Qed.

Lemma after_save_active u t w : active_threads (after_save u t w) = active_threads w.
Proof. unfold after_save. by destruct (db_ok w). Qed.

Lemma after_save_clock u t w : clock (after_save u t w) = clock w.
Proof. unfold after_save. by destruct (db_ok w). Qed.

Lemma after_save_send_results u t w :
  send_results (after_save u t w) = send_results w.
Proof. unfold after_save. by destruct (db_ok w). Qed.

Opaque after_save save_thread.

Lemma resolve_thread_inv u w t w' :
  resolve_thread u w = (Normal t, w') →
  ∃ w0 evs, w' = after_save u t w0 ∧ clock w0 = clock w
            ∧ trace w0 = trace w ++ evs.
Proof.
  unfold resolve_thread, get_thread_id, threads_create, db_execute. unfold_m.
  repeat case_step; intros [= <- <-]; eexists; eexists;
    (split; [reflexivity |]); simpl; (split; [reflexivity |]);
    rewrite <- ?app_assoc; try reflexivity; symmetry; apply app_nil_r.
Qed.

(** C5. After a resolution that produced a thread id and whose upsert
    committed, the cache entry of the user is that id and agrees with the
    thread id the store holds for the user. *)
Theorem resolve_cache_agrees_with_store (u t : string) (w w' : World) :
  resolve_thread u w = (Normal t, w') →
  last (trace w') = Some (DbUpsertThread u t true) →
  thread_cache w' !! u = Some t
  ∧ thread_cache w' !! u = fst <$> user_threads w' !! u.
Proof.
  intros Hres Hlast.
  destruct (resolve_thread_inv _ _ _ _ Hres) as (w0 & evs & -> & _ & _).
  rewrite after_save_trace, last_snoc in Hlast.
  injection Hlast as Hok.
  rewrite after_save_cache, after_save_table, Hok, !lookup_insert_eq.
  done.
Qed.

Lemma store_available_2 w :
  store_available 2 w = true →
  db_ok w = true ∧ db_ok (set_db_faults (tail (db_faults w)) w) = true.
Proof.
  unfold store_available, db_ok. destruct (db_faults w) as [|[] [|[] fs]]; simpl; try done.
Qed.

Lemma resolve_thread_inv_store u w t w' :
  resolve_thread u w = (Normal t, w') →
  ∃ w0 evs, w' = after_save u t w0
            ∧ clock w0 = clock w
            ∧ user_threads w0 = user_threads w
            ∧ db_ok w0 = upsert_ok u w
            ∧ trace w0 = trace w ++ evs.
Proof.
  unfold resolve_thread, get_thread_id, threads_create, db_execute, upsert_ok.
  unfold_m.
  destruct (thread_cache w !! u) as [t0|] eqn:Hcache; simpl;
    repeat case_step; intros [= <- <-]; eexists _, _;
    (split; [reflexivity |]); simpl; (split; [reflexivity |]);
    (split; [reflexivity |]); (split; [reflexivity |]);
    rewrite <- ?app_assoc; try reflexivity; symmetry; apply app_nil_r.
Qed.

(** C6. Every resolution that produces a thread id, from the cache, from
    the store or from a fresh creation, ends with an upsert for that user
    and that id.  The upsert commits unless the database fails on it:
    then the row holds the id and [last_used] is the current time,
    whatever the row held before; with the store available it always
    does. *)
Theorem resolve_refreshes_last_used (u t : string) (w w' : World) :
  resolve_thread u w = (Normal t, w') →
  (∃ evs, trace w' = trace w ++ evs ++ [DbUpsertThread u t (upsert_ok u w)])
  ∧ user_threads w' !! u
    = (if upsert_ok u w then Some (t, clock w) else user_threads w !! u)
  ∧ (store_available 2 w = true → user_threads w' !! u = Some (t, clock w)).
Proof.
  intros Hres.
  destruct (resolve_thread_inv_store _ _ _ _ Hres)
    as (w0 & evs & -> & Hclock & Htable & Hok & Htrace).
  assert (Hrow : user_threads (after_save u t w0) !! u
                 = if upsert_ok u w then Some (t, clock w) else user_threads w !! u).
  { rewrite after_save_table, Hok, Hclock, Htable.
    destruct (upsert_ok u w); [apply lookup_insert_eq | done]. }
  split; [| split].
  - exists evs. by rewrite after_save_trace, Hok, Htrace, app_assoc.
  - exact Hrow.
  - intros Hdb. rewrite Hrow.
    destruct (store_available_2 _ Hdb) as [Hok1 Hok2].
    unfold upsert_ok. destruct (thread_cache w !! u); by rewrite ?Hok1, ?Hok2.
Qed.

(** C4. For a user with no cache entry and no row, with the store
    available and the backend creating thread [t], one resolution creates
    exactly one thread and persists it; the resolution that follows
    immediately returns the same id and creates no thread. *)
Theorem resolve_new_user_once (u t : string) (w : World)
    (rest : list (option string)) :
  thread_cache w !! u = None →
  user_threads w !! u = None →
  store_available 2 w = true →
  create_results w = Some t :: rest →
  truthy t = true →
  ∃ w1 w2 ok,
    resolve_thread u w = (Normal t, w1)
    ∧ trace w1 = trace w ++ [DbSelectThread u true; ThreadsCreate (Some t);
                             DbUpsertThread u t true]
    ∧ user_threads w1 !! u = Some (t, clock w)
    ∧ resolve_thread u w1 = (Normal t, w2)
    ∧ trace w2 = trace w1 ++ [DbUpsertThread u t ok]
    ∧ fst <$> user_threads w2 !! u = Some t.
Proof.
  intros Hcache Hrow Hdb Hcreate Ht.
  set (w0 := log (ThreadsCreate (Some t))
               (set_create_results rest
                  (log (DbSelectThread u true) (set_db_faults (tail (db_faults w)) w)))).
  assert (Hfirst : resolve_thread u w = (Normal t, after_save u t w0)).
  { unfold resolve_thread, get_thread_id, threads_create, db_execute. unfold_m.
    rewrite Hcache. simpl. 
    destruct (store_available_2 _ Hdb) as [Hok _]. unfold db_ok in Hok.
    destruct (head (db_faults w)) as [[]|]; try done; simpl;
      rewrite Hrow; simpl; rewrite Hcreate; simpl; by rewrite save_thread_run. }
  assert (Hok0 : db_ok w0 = true).
  { destruct (store_available_2 _ Hdb) as [_ Hok]. exact Hok. }
  assert (Hsecond : resolve_thread u (after_save u t w0)
                    = (Normal t, after_save u t (after_save u t w0))).
  { unfold resolve_thread, get_thread_id. unfold_m.
    rewrite after_save_cache, lookup_insert_eq. simpl. rewrite Ht.
    by rewrite save_thread_run. }
  exists (after_save u t w0), (after_save u t (after_save u t w0)),
    (db_ok (after_save u t w0)).
  split; [exact Hfirst |]. split.
  { rewrite after_save_trace, Hok0. subst w0. simpl. by rewrite <- !app_assoc. }
  split. { by rewrite after_save_table, Hok0, lookup_insert_eq. }
  split; [exact Hsecond |]. split; [apply after_save_trace |].
  rewrite !after_save_table, Hok0.
  destruct (db_ok (after_save u t w0)); by rewrite lookup_insert_eq.
Qed.

(** ** Failures of the store *)

Lemma get_thread_id_db_error u w :
  thread_cache w !! u = None → db_ok w = false →
  get_thread_id u w
  = (Raised "database error",
     log (DbSelectThread u false) (set_db_faults (tail (db_faults w)) w)).
Proof.
  intros Hcache Hdb. unfold get_thread_id, db_execute, db_ok in *. unfold_m.
  rewrite Hcache. by destruct (head (db_faults w)) as [[]|].
Qed.

(** C7, as amended. When the next statement on the database fails: a
    resolution that has to read the table raises the database error (no
    thread is created and nothing is treated as a missing row), whereas
    [save_thread] catches the error: it ends normally, the cache holds the
    thread id, the table is unchanged and the caller sees no error. *)
Theorem store_failure_handling (u t : string) (w : World) :
  db_ok w = false →
  (thread_cache w !! u = None →
   resolve_thread u w
   = (Raised "database error",
      log (DbSelectThread u false) (set_db_faults (tail (db_faults w)) w)))
  ∧ (save_thread u t w).1 = Normal tt
  ∧ thread_cache (save_thread u t w).2 !! u = Some t
  ∧ user_threads (save_thread u t w).2 = user_threads w
  ∧ trace (save_thread u t w).2 = trace w ++ [DbUpsertThread u t false].
Proof.
  intros Hdb. split.
  - intros Hcache. unfold resolve_thread.
    by rewrite (bind_raised _ _ _ _ _ (get_thread_id_db_error u w Hcache Hdb)).
  - rewrite save_thread_run. simpl.
    rewrite after_save_cache, after_save_table, after_save_trace, Hdb.
    by rewrite lookup_insert_eq.
Qed.

(** ** The send and its retry *)



Lemma send_with_retry_stale u t c w e sends t' creates :
  send_results w = Some e :: sends →
  contains NO_THREAD_FOUND e = true →
  create_results w = Some t' :: creates →
  send_with_retry u t c w
  = let w3 := after_save u t'
                (log (ThreadsCreate (Some t'))
                   (set_create_results creates
                      (log (MessagesCreate t c (Some e)) (set_send_results sends w)))) in
    match head sends with
    | Some (Some e2) =>
        (Returned,
         set_active_threads (active_threads w3 ∖ {[t']})
           (log (ChannelSend MSG_SEND_FAILED_CALI)
              (log (MessagesCreate t' c (Some e2)) (set_send_results (tail sends) w3))))
    | _ => (Normal t', log (MessagesCreate t' c None) (set_send_results (tail sends) w3))
    end.
Proof.
  intros Hsend Hstale Hcreate.
  unfold send_with_retry, messages_create, threads_create, send_failed, channel_send. unfold_m.
  rewrite Hsend. simpl. rewrite Hstale. simpl. rewrite Hcreate. simpl.
  rewrite save_thread_run, after_save_send_results. simpl.
  by destruct sends as [|[e2|] sends'].
Qed.

(** C2. When the first send fails with an error whose text contains
    "No thread found with id" and the backend creates thread [t'], the
    block asks for exactly one new thread, writes it to the cache and
    issues the upsert for it before the second send, sends exactly once
    more, to [t']; when that send succeeds the block ends normally with
    [t'], and when the upsert committed the table holds [t']. *)
Theorem stale_thread_retry (u t : string) (c : list part) (w : World)
    (e : string) (sends : list (option string)) (t' : string)
    (creates : list (option string)) :
  send_results w = Some e :: sends →
  contains NO_THREAD_FOUND e = true →
  create_results w = Some t' :: creates →
  ∃ w',
    send_with_retry u t c w
    = (if bool_decide (default None (head sends) = None)
       then Normal t' else Returned, w')
    ∧ trace w'
      = trace w ++ [MessagesCreate t c (Some e); ThreadsCreate (Some t');
                    DbUpsertThread u t' (db_ok w);
                    MessagesCreate t' c (default None (head sends))]
          ++ (if bool_decide (default None (head sends) = None) then []
              else [ChannelSend MSG_SEND_FAILED_CALI])
    ∧ thread_cache w' !! u = Some t'
    ∧ (db_ok w = true → user_threads w' !! u = Some (t', clock w)).
Proof.
  intros Hsend Hstale Hcreate.
  rewrite (send_with_retry_stale u t c w e sends t' creates Hsend Hstale Hcreate).
  cbv zeta.
  destruct sends as [|[e2|] sends']; simpl; eexists; (split; [reflexivity |]);
    simpl; rewrite after_save_trace, after_save_cache, after_save_table; simpl;
    rewrite <- !app_assoc; simpl; (split; [reflexivity |]);
    (split; [apply lookup_insert_eq |]);
    intros Hok; unfold db_ok in *; simpl in *; rewrite Hok; apply lookup_insert_eq.
Qed.

Lemma send_with_retry_generic u t c w e sends :
  send_results w = Some e :: sends →
  contains NO_THREAD_FOUND e = false →
  send_with_retry u t c w
  = (Normal t,
     log (ChannelSend MSG_SEND_FAILED_AI)
       (log (MessagesCreate t c (Some e)) (set_send_results sends w))).
Proof.
  intros Hsend Hgeneric.
  unfold send_with_retry, messages_create, channel_send. unfold_m.
  rewrite Hsend. simpl. by rewrite Hgeneric.
Qed.


(** ** Messages for a thread that is in flight *)

Lemma emit_snoc evs e w : emit (evs ++ [e]) w = log e (emit evs w).
Proof. unfold emit. by rewrite foldl_app. Qed.

Lemma emit_trace evs w : trace (emit evs w) = trace w ++ evs.
Proof.
  revert w. induction evs as [|e evs IH]; intros w; simpl.
  - by rewrite app_nil_r.
  - rewrite IH. simpl. by rewrite <- app_assoc.
Qed.

Lemma emit_active evs w : active_threads (emit evs w) = active_threads w.
Proof. revert w. induction evs as [|e evs IH]; intros w; simpl; [done | by rewrite IH]. Qed.

Lemma input_notice_event text : text ∈ INPUT_NOTICES → input_event (ChannelSend text).
Proof. done. Qed.

Ltac in_notices := unfold input_event, INPUT_NOTICES; repeat constructor.

Lemma notice_in_list text :
  text ∈ INPUT_NOTICES → Forall input_event [ChannelSend text].
Proof. intros H. constructor; [exact H | constructor]. Qed.

Lemma handle_attachments_run atts :
  ∀ cd w, ∃ r evs,
    handle_attachments atts cd w = (r, emit evs w)
    ∧ Forall input_event evs
    ∧ (∀ e, r ≠ Raised e)
    ∧ (atts = [] → r = Normal cd ∧ evs = []).
Proof.
  induction atts as [|a rest IH]; intros cd w.
  - exists (Normal cd), []. split; [done |]. split; [constructor |]. by split.
  - assert (Hstop : ∀ text, text ∈ INPUT_NOTICES →
      ∃ r evs, (channel_send text >> py_return) w = (r, emit evs w)
        ∧ Forall input_event evs ∧ (∀ e, r ≠ Raised e)
        ∧ (a :: rest = [] → r = Normal cd ∧ evs = [])).
    { intros text Htext. exists Returned, [ChannelSend text].
      split; [done |]. split; [by apply notice_in_list |]. by split. }
    simpl.
    destruct (has_ext ALLOWED_EXTENSIONS (att_ext a)); simpl;
      [| apply Hstop; in_notices].
    destruct (has_ext IMAGE_EXTENSIONS (att_ext a)).
    + destruct (bool_decide (att_status a = 200));
        [| apply Hstop; in_notices].
      destruct (att_upload a) as [file_id|] eqn:Hup.
      * destruct (IH (cd ++ [ImageFilePart file_id; ImageFilePart file_id])
                    (log (FilesCreate (att_filename a) (Some file_id)) w))
          as (r & evs & Heq & Hev & Hr & _).
        exists r, (FilesCreate (att_filename a) (Some file_id) :: evs).
        unfold bind, modify. rewrite Heq.
        split; [done |]. split; [by constructor |]. by split.
      * exists Returned, [FilesCreate (att_filename a) None; ChannelSend MSG_IMAGE_UPLOAD].
        split; [done |]. split; [| by split].
        constructor; [done |]. apply notice_in_list.
        in_notices.
    + destruct (bool_decide (att_status a = 200));
        [| apply Hstop; in_notices].
      destruct (truthy (att_text a)).
      * destruct (IH (cd ++ [TextPart (att_text a)]) w) as (r & evs & Heq & Hev & Hr & _).
        exists r, evs. split; [done |]. split; [done |]. by split.
      * destruct (IH cd (log (ChannelSend MSG_NO_CONTENT) w))
          as (r & evs & Heq & Hev & Hr & _).
        exists r, (ChannelSend MSG_NO_CONTENT :: evs).
        unfold bind, channel_send, modify. rewrite Heq.
        split; [done |]. split; [| by split].
        constructor; [| done]. in_notices.
Qed.

Lemma process_message_dropped m u t w :
  t ∈ active_threads w →
  ∃ evs,
    process_message m u t w = (Returned, emit evs w)
    ∧ Forall input_event evs
    ∧ (attachments m = [] → truthy (content m) = true → evs = []).
Proof.
  intros Hactive. unfold process_message.
  destruct (handle_attachments_run (attachments m)
              (if truthy (content m) then [TextPart (content m)] else []) w)
    as (r & evs & Heq & Hev & Hr & Hnil).
  unfold bind at 1. rewrite Heq.
  destruct r as [[|p cd]| |e].
  - exists (evs ++ [ChannelSend MSG_NO_INPUT]).
    unfold bind, channel_send, py_return, modify. rewrite emit_snoc.
    split; [done |]. split.
    + apply Forall_app. split; [done |]. apply notice_in_list. in_notices.
    + intros Hatts Htext. destruct (Hnil Hatts) as [Hcd _].
      rewrite Htext in Hcd. done.
  - exists evs. unfold bind, get, py_return. rewrite emit_active.
    rewrite bool_decide_true by done.
    split; [done |]. split; [done |].
    intros Hatts _. by destruct (Hnil Hatts).
  - exists evs. split; [done |]. split; [done |].
    intros Hatts _. by destruct (Hnil Hatts).
  - by destruct (Hr e).
Qed.

Lemma update_username_lookup_run u n d w :
  update_username_lookup u n d w
  = (Normal tt,
     log (DbUserLookup u n d (db_ok w)) (set_db_faults (tail (db_faults w)) w)).
Proof.
  unfold update_username_lookup, db_execute, db_ok. unfold_m.
  by destruct (head (db_faults w)) as [[]|].
Qed.

Lemma resolve_cache_hit u t w :
  thread_cache w !! u = Some t → truthy t = true →
  resolve_thread u w = (Normal t, after_save u t w).
Proof.
  intros Hcache Ht. unfold resolve_thread, get_thread_id. unfold_m.
  rewrite Hcache. simpl. rewrite Ht. by rewrite save_thread_run.
Qed.

(** C8, as amended. A direct message of a user whose cached thread is in
    [active_threads] is dropped: the handler ends normally, the set is
    unchanged, and after the user lookup and the upsert nothing happens
    but the uploads and the notices about the input that precede the test
    of [active_threads]: no send, no run, no thread creation.  A message
    with text and no attachment gets no answer at all. *)
Theorem in_flight_message_dropped (m : Message) (t : string) (w : World) :
  from_bot m = false → is_dm m = true →
  thread_cache w !! author_id m = Some t → truthy t = true →
  t ∈ active_threads w →
  ∃ w' ok1 ok2 notices,
    handle_user_message m w = (Normal tt, w')
    ∧ active_threads w' = active_threads w
    ∧ trace w'
      = trace w ++ [DbUserLookup (author_id m) (author_name m)
                      (author_display_name m) ok1;
                    DbUpsertThread (author_id m) t ok2] ++ notices
    ∧ Forall input_event notices
    ∧ (attachments m = [] → truthy (content m) = true → notices = []).
Proof.
  intros Hbot Hdm Hcache Ht Hactive.
  set (w1 := log (DbUserLookup (author_id m) (author_name m)
                    (author_display_name m) (db_ok w))
               (set_db_faults (tail (db_faults w)) w)).
  destruct (process_message_dropped m (author_id m) t (after_save (author_id m) t w1))
    as (evs & Hproc & Hev & Hnil).
  { by rewrite after_save_active. }
  exists (emit evs (after_save (author_id m) t w1)), (db_ok w), (db_ok w1), evs.
  split.
  - unfold handle_user_message, call. rewrite Hbot, Hdm.
    rewrite (bind_normal _ _ _ _ _ (update_username_lookup_run _ _ _ w)).
    fold w1. rewrite (bind_normal _ _ _ _ _ (resolve_cache_hit _ t w1 Hcache Ht)).
    unfold try_except. by rewrite Hproc.
  - rewrite emit_active, after_save_active, emit_trace, after_save_trace.
    simpl. rewrite <- !app_assoc. done.
Qed.

(** ** The cache cleanup *)

Lemma evict_lookup (user_ids : list string) (cache : gmap string string) (u : string) :
  evict user_ids cache !! u = if bool_decide (u ∈ user_ids) then None else cache !! u.
Proof.
  revert cache. induction user_ids as [|v vs IH]; intros cache.
  - done.
  - change (evict (v :: vs) cache)
      with (evict vs (if bool_decide (v ∈ dom cache) then delete v cache else cache)).
    rewrite IH.
    destruct (decide (u ∈ vs)) as [Hin|Hnin].
    + rewrite (bool_decide_true (u ∈ vs)) by done.
      rewrite (bool_decide_true (u ∈ v :: vs)); [done |].
      by apply list_elem_of_further.
    + rewrite (bool_decide_false (u ∈ vs)) by done.
      destruct (decide (u = v)) as [->|Hne].
      * rewrite (bool_decide_true (v ∈ v :: vs)) by apply list_elem_of_here.
        destruct (decide (v ∈ dom cache)) as [Hdom|Hdom].
        -- rewrite (bool_decide_true _ Hdom). apply lookup_delete_eq.
        -- rewrite (bool_decide_false _ Hdom). by apply not_elem_of_dom.
      * rewrite (bool_decide_false (u ∈ v :: vs)).
        -- destruct (bool_decide (v ∈ dom cache)); [by rewrite lookup_delete_ne | done].
        -- intros Hin. apply elem_of_cons in Hin as [?|?]; done.
Qed.

Lemma elem_of_stale_users (u : string) (w : World) :
  u ∈ stale_users w
  ↔ ∃ t last_used, user_threads w !! u = Some (t, last_used)
                   ∧ last_used < clock w - STALE_SECONDS.
Proof.
  unfold stale_users. rewrite list_elem_of_fmap. split.
  - intros ([k [t lu]] & -> & Hin). apply elem_of_map_to_list in Hin.
    apply map_lookup_filter_Some in Hin as [Hrow Hstale]. simpl in *.
    exists t, lu. split; [done |]. unfold is_stale in Hstale.
    by apply bool_decide_eq_true in Hstale.
  - intros (t & lu & Hrow & Hlt). exists (u, (t, lu)). split; [done |].
    apply elem_of_map_to_list, map_lookup_filter_Some. split; [done |].
    simpl. unfold is_stale. by apply bool_decide_eq_true.
Qed.

Lemma reset_thread_cache_cycle_run w :
  reset_thread_cache_cycle w
  = (Normal tt,
     if db_ok w
     then set_thread_cache (evict (stale_users w) (thread_cache w))
            (log (DbSelectStale true) (set_db_faults (tail (db_faults w)) w))
     else log (DbSelectStale false) (set_db_faults (tail (db_faults w)) w)).
Proof.
  unfold reset_thread_cache_cycle, db_execute, db_ok. unfold_m.
  by destruct (head (db_faults w)) as [[]|].
Qed.

Lemma reset_thread_cache_keeps_store w :
  user_threads (reset_thread_cache_cycle w).2 = user_threads w.
Proof. rewrite reset_thread_cache_cycle_run. simpl. by destruct (db_ok w). Qed.

(** C9. A cleanup round whose query succeeds ends normally, leaves the
    table [user_threads] as it was, and removes from the cache exactly the
    users whose row has [last_used] older than 24 hours: every other cache
    entry is kept. *)
Theorem janitor_evicts_stale_only (w : World) (u : string) :
  db_ok w = true →
  (reset_thread_cache_cycle w).1 = Normal tt
  ∧ user_threads (reset_thread_cache_cycle w).2 = user_threads w
  ∧ thread_cache (reset_thread_cache_cycle w).2 !! u
    = match user_threads w !! u with
      | Some (_, last_used) =>
          if bool_decide (last_used < clock w - STALE_SECONDS) then None
          else thread_cache w !! u
      | None => thread_cache w !! u
      end.
Proof.
  intros Hdb. split; [by rewrite reset_thread_cache_cycle_run |].
  split; [apply reset_thread_cache_keeps_store |].
  rewrite reset_thread_cache_cycle_run, Hdb. simpl. rewrite evict_lookup.
  destruct (user_threads w !! u) as [[t lu]|] eqn:Hrow.
  - destruct (decide (lu < clock w - STALE_SECONDS)) as [Hlt|Hge].
    + rewrite (bool_decide_true _ Hlt).
      rewrite bool_decide_true; [done |]. apply elem_of_stale_users. eauto.
    + rewrite (bool_decide_false _ Hge).
      rewrite bool_decide_false; [done |]. intros Hin.
      apply elem_of_stale_users in Hin as (t' & lu' & Hrow' & Hlt').
      rewrite Hrow in Hrow'. by simplify_eq.
  - rewrite bool_decide_false; [done |]. intros Hin.
    apply elem_of_stale_users in Hin as (t' & lu' & Hrow' & _).
    by rewrite Hrow in Hrow'.
Qed.

(** ** The handler on the scenarios *)

(** C1. The code leaves a thread id in [active_threads] after the handler
    has ended.  When [runs.create_and_poll] raises, the handler ends with
    T1 still in the set; when the thread had expired and the retry with
    the new thread T2 succeeded, the handler answers the user and ends with
    the old id T1 still in the set. *)
Theorem guard_left_behind :
  (run_fails.1 = Normal tt
   ∧ trace run_fails.2
     = [DbUserLookup "U1" "bob" "Bob" true; DbUpsertThread "U1" "T1" true;
        MessagesCreate "T1" [TextPart "hello"] None;
        RunsCreateAndPoll "T1" false]
   ∧ "T1" ∈ active_threads run_fails.2)
  ∧ (thread_expired.1 = Normal tt
     ∧ trace thread_expired.2
       = [DbUserLookup "U1" "bob" "Bob" true; DbUpsertThread "U1" "T1" true;
          MessagesCreate "T1" [TextPart "hello"] (Some STALE_ERROR);
          ThreadsCreate (Some "T2"); DbUpsertThread "U1" "T2" true;
          MessagesCreate "T2" [TextPart "hello"] None;
          RunsCreateAndPoll "T2" true;
          DbLogTokens "U1" "T2" "gpt-4o" (mkUsage 12 30 42) true;
          MessagesList "T2" true; ChannelSend "hi bob"]
     ∧ "T1" ∈ active_threads thread_expired.2).
Proof. split; (split; [| split]); by_evaluation. Qed.

(** C3. After a send that failed with an error other than the missing
    thread, the code sends no second message and creates no thread, but it
    does not stop: it tells the user that the message could not be sent,
    then starts a run on the thread and sends the user a reply. *)
Theorem generic_failure_runs_anyway :
  contains NO_THREAD_FOUND "Rate limit exceeded" = false
  ∧ rate_limited.1 = Normal tt
  ∧ trace rate_limited.2
    = [DbUserLookup "U1" "bob" "Bob" true; DbUpsertThread "U1" "T1" true;
       MessagesCreate "T1" [TextPart "hello"] (Some "Rate limit exceeded");
       ChannelSend MSG_SEND_FAILED_AI;
       RunsCreateAndPoll "T1" true;
       DbLogTokens "U1" "T1" "gpt-4o" (mkUsage 12 30 42) true;
       MessagesList "T1" true; ChannelSend "hi bob"].
Proof. split; [| split]; by_evaluation. Qed.

(** Against C7 as stated: the upsert of the new thread T1 fails, yet the
    handler raises nothing, sends the message, runs the assistant and
    answers; the table has no row for the user afterwards. *)
Lemma upsert_failure_not_surfaced :
  upsert_fails.1 = Normal tt
  ∧ trace upsert_fails.2
    = [DbUserLookup "U1" "bob" "Bob" true; DbSelectThread "U1" true;
       ThreadsCreate (Some "T1"); DbUpsertThread "U1" "T1" false;
       MessagesCreate "T1" [TextPart "hello"] None;
       RunsCreateAndPoll "T1" true;
       DbLogTokens "U1" "T1" "gpt-4o" (mkUsage 12 30 42) true;
       MessagesList "T1" true; ChannelSend "hi bob"]
  ∧ user_threads upsert_fails.2 !! "U1" = None.
Proof. split; [| split]; by_evaluation. Qed.

(** Against C8 as stated: thread T1 is in flight, the second message of
    its user is dropped (nothing is sent to the backend), and yet the user
    receives a text for it, the notice about the empty file. *)
Lemma dropped_message_gets_notice :
  "T1" ∈ active_threads busy
  ∧ thread_cache busy !! "U1" = Some "T1"
  ∧ second_message.1 = Normal tt
  ∧ trace second_message.2
    = [DbUserLookup "U1" "bob" "Bob" true; DbUpsertThread "U1" "T1" true;
       ChannelSend MSG_NO_CONTENT].
Proof. split; [| split; [| split]]; by_evaluation. Qed.

(** ** The general statements at concrete inputs *)

Lemma stale_thread_retry_witness :
  ∃ w',
    send_with_retry "U1" "T1" [TextPart "hello"]
      (known_user [Some STALE_ERROR] [Some "T2"] [])
    = (Normal "T2", w')
    ∧ trace w' = [MessagesCreate "T1" [TextPart "hello"] (Some STALE_ERROR);
                  ThreadsCreate (Some "T2"); DbUpsertThread "U1" "T2" true;
                  MessagesCreate "T2" [TextPart "hello"] None]
    ∧ thread_cache w' !! "U1" = Some "T2"
    ∧ user_threads w' !! "U1" = Some ("T2", 5000).
Proof.
  destruct (stale_thread_retry "U1" "T1" [TextPart "hello"]
              (known_user [Some STALE_ERROR] [Some "T2"] [])
              STALE_ERROR [] "T2" [] eq_refl eq_refl eq_refl)
    as (w' & Hrun & Htrace & Hcache & Hrow).
  exists w'. split; [exact Hrun |]. split; [exact Htrace |].
  split; [exact Hcache |]. apply Hrow. reflexivity.
Defined.

Lemma resolve_new_user_once_witness :
  ∃ w1 w2 ok,
    resolve_thread "U1" (new_user []) = (Normal "T1", w1)
    ∧ trace w1 = trace (new_user [])
                 ++ [DbSelectThread "U1" true; ThreadsCreate (Some "T1");
                     DbUpsertThread "U1" "T1" true]
    ∧ user_threads w1 !! "U1" = Some ("T1", clock (new_user []))
    ∧ resolve_thread "U1" w1 = (Normal "T1", w2)
    ∧ trace w2 = trace w1 ++ [DbUpsertThread "U1" "T1" ok]
    ∧ fst <$> user_threads w2 !! "U1" = Some "T1".
Proof.
  apply (resolve_new_user_once "U1" "T1" (new_user []) []); reflexivity.
Defined.

Lemma resolve_cache_agrees_with_store_witness :
  thread_cache (resolve_thread "U1" (new_user [])).2 !! "U1" = Some "T1"
  ∧ thread_cache (resolve_thread "U1" (new_user [])).2 !! "U1"
    = fst <$> user_threads (resolve_thread "U1" (new_user [])).2 !! "U1".
Proof.
  apply (resolve_cache_agrees_with_store "U1" "T1" (new_user [])); by_evaluation.
Defined.

Lemma resolve_refreshes_last_used_witness :
  user_threads (known_user [] [] []) !! "U1" = Some ("T1", 100)
  ∧ clock (known_user [] [] []) = 5000
  ∧ user_threads (resolve_thread "U1" (known_user [] [] [])).2 !! "U1"
    = Some ("T1", 5000).
Proof.
  split; [by_evaluation |]. split; [reflexivity |].
  apply (resolve_refreshes_last_used "U1" "T1" (known_user [] [] [])
           (resolve_thread "U1" (known_user [] [] [])).2).
  - by_evaluation.
  - reflexivity.
Defined.

Lemma store_failure_handling_witness :
  (thread_cache (new_user [true]) !! "U1" = None →
   resolve_thread "U1" (new_user [true])
   = (Raised "database error",
      log (DbSelectThread "U1" false)
        (set_db_faults (tail (db_faults (new_user [true]))) (new_user [true]))))
  ∧ (save_thread "U1" "T1" (new_user [true])).1 = Normal tt
  ∧ thread_cache (save_thread "U1" "T1" (new_user [true])).2 !! "U1" = Some "T1"
  ∧ user_threads (save_thread "U1" "T1" (new_user [true])).2
    = user_threads (new_user [true])
  ∧ trace (save_thread "U1" "T1" (new_user [true])).2
    = trace (new_user [true]) ++ [DbUpsertThread "U1" "T1" false].
Proof.
  apply (store_failure_handling "U1" "T1" (new_user [true])). reflexivity.
Defined.

Lemma in_flight_message_dropped_witness :
  ∃ w' ok1 ok2 notices,
    handle_user_message hello busy = (Normal tt, w')
    ∧ active_threads w' = active_threads busy
    ∧ trace w'
      = trace busy ++ [DbUserLookup (author_id hello) (author_name hello)
                         (author_display_name hello) ok1;
                       DbUpsertThread (author_id hello) "T1" ok2] ++ notices
    ∧ Forall input_event notices
    ∧ (attachments hello = [] → truthy (content hello) = true → notices = []).
Proof.
  apply (in_flight_message_dropped hello "T1" busy); by_evaluation.
Defined.

Lemma janitor_evicts_stale_only_witness :
  (reset_thread_cache_cycle two_cached).1 = Normal tt
  ∧ user_threads (reset_thread_cache_cycle two_cached).2 = user_threads two_cached
  ∧ thread_cache (reset_thread_cache_cycle two_cached).2 !! "U2"
    = match user_threads two_cached !! "U2" with
      | Some (_, last_used) =>
          if bool_decide (last_used < clock two_cached - STALE_SECONDS) then None
          else thread_cache two_cached !! "U2"
      | None => thread_cache two_cached !! "U2"
      end.
Proof. apply (janitor_evicts_stale_only two_cached "U2"). reflexivity. Defined.

(** The stale user is evicted from the cache, the fresh one is kept, and
    the table still has the thread of the evicted user. *)
Example janitor_scenario :
  thread_cache (reset_thread_cache_cycle two_cached).2 !! "U2" = None
  ∧ thread_cache (reset_thread_cache_cycle two_cached).2 !! "U3" = Some "T3"
  ∧ user_threads (reset_thread_cache_cycle two_cached).2 !! "U2"
    = Some ("T2", 100000 - 25 * 3600).
Proof. split; [| split]; by_evaluation. Qed.

(** A text of 4001 characters goes out as chunks of 2000, 2000 and 1. *)
Example three_chunks :
  String.length <$> message_chunks (String.string_of_list_ascii (replicate 4001 "a"%char))
  = [2000; 2000; 1]%nat.
Proof. by_evaluation. Qed.

(** ** The substring test *)

Lemma append_cons c (s1 s2 : string) :
  String c s1 +:+ s2 = String c (s1 +:+ s2).
Proof. reflexivity. Qed.

Lemma prefix_spec (s1 s2 : string) :
  String.prefix s1 s2 = true ↔ ∃ post, s2 = s1 +:+ post.
Proof.
  revert s2. induction s1 as [|c s1 IH]; intros s2.
  - split; [intros _; by exists s2 | by destruct s2].
  - destruct s2 as [|c2 s2]; simpl.
    + split; [done | by intros [post ?]].
    + destruct (Ascii.ascii_dec c c2) as [->|Hne].
      * rewrite IH. split; intros [post Hpost]; exists post; rewrite append_cons in *; congruence.
      * split; [done |]. intros [post Hpost]. rewrite append_cons in Hpost. congruence.
Qed.

Lemma contains_unfold (needle hay : string) :
  contains needle hay
  = if String.prefix needle hay then true
    else match hay with
         | EmptyString => false
         | String _ hay' => contains needle hay'
         end.
Proof. by destruct hay. Qed.

(** X1. The test the code applies to the text of a failed send is true
    exactly when the marker occurs somewhere in the text, with anything
    before and after it. *)
Theorem contains_spec (needle hay : string) :
  contains needle hay = true ↔ ∃ pre post, hay = pre +:+ needle +:+ post.
Proof.
  split.
  - induction hay as [|c hay IH]; rewrite contains_unfold;
      destruct (String.prefix needle _) eqn:Hp.
    + intros _. apply prefix_spec in Hp as [post Hpost]. by exists "", post.
    + done.
    + intros _. apply prefix_spec in Hp as [post Hpost]. by exists "", post.
    + intros Hc. destruct (IH Hc) as (pre & post & ->).
      by exists (String c pre), post.
  - intros (pre & post & ->). induction pre as [|c pre IH];
      rewrite contains_unfold.
    + assert (Hp : String.prefix needle (needle +:+ post) = true)
        by (apply prefix_spec; eauto).
      change ("" +:+ needle +:+ post) with (needle +:+ post). by rewrite Hp.
    + rewrite append_cons, IH. by destruct (String.prefix needle _).
Qed.

(** ** The sizes of the chunks *)

Section chunk_sizes.
Local Open Scope nat_scope.

Lemma length_slice text i n :
  String.length (slice text i n) = n `min` (String.length text - i).
Proof.
  unfold slice. rewrite <- !length_list_ascii, substring_take_drop.
  by rewrite length_take, length_drop.
Qed.

Lemma length_message_chunks text :
  length (message_chunks text) = (String.length text + 1999) / 2000.
Proof.
  unfold message_chunks, py_range0, max_length.
  rewrite !length_fmap, length_seq. f_equal. lia.
Qed.

Lemma message_chunks_lookup text k chunk :
  message_chunks text !! k = Some chunk →
  chunk = slice text (k * 2000) 2000 ∧ k * 2000 < String.length text.
Proof.
  unfold message_chunks, py_range0. rewrite <- list_fmap_compose.
  rewrite list_lookup_fmap. intros Hk.
  destruct (seq 0 _ !! k) as [k'|] eqn:Hseq; [| done].
  apply lookup_seq in Hseq as [-> Hlt]. simpl in Hk.
  injection Hk as <-. split; [reflexivity |].
  unfold max_length in Hlt.
  pose proof (Nat.div_mod_eq (String.length text + 2000 - 1) 2000).
  pose proof (Nat.mod_upper_bound (String.length text + 2000 - 1) 2000).
  lia.
Qed.

(** X2. No chunk of [send_long_message] is empty and none is longer than
    2000 characters; every chunk but the last has exactly 2000. *)
Theorem chunk_sizes (text : string) (k : nat) (chunk : string) :
  message_chunks text !! k = Some chunk →
  0 < String.length chunk ≤ 2000
  ∧ (S k < length (message_chunks text) → String.length chunk = 2000).
Proof.
  intros Hk. pose proof (message_chunks_lookup _ _ _ Hk) as [-> Hlt].
  rewrite length_slice, length_message_chunks. split; [lia |].
  intros Hnext.
  pose proof (Nat.div_mod_eq (String.length text + 1999) 2000).
  pose proof (Nat.mod_upper_bound (String.length text + 1999) 2000).
  lia.
Qed.

(** X3. A text of 1 to 2000 characters is sent as one message, unchanged. *)
Theorem short_text_one_chunk (text : string) :
  0 < String.length text ≤ 2000 → message_chunks text = [text].
Proof.
  intros Hlen.
  assert (Hcount : (String.length text + max_length - 1) / max_length = 1).
  { unfold max_length. symmetry. apply (Nat.div_unique _ _ _ (String.length text - 1)); lia. }
  unfold message_chunks, py_range0. rewrite Hcount. simpl. f_equal.
  apply list_ascii_inj. unfold slice. rewrite substring_take_drop. simpl.
  apply take_ge. rewrite length_list_ascii. unfold max_length. lia.
Qed.
End chunk_sizes.

(** ** More on saving and looking up *)

Transparent after_save.
Lemma after_save_db_faults u t w : db_faults (after_save u t w) = tail (db_faults w).
Proof. unfold after_save. by destruct (db_ok w). Qed.

Lemma after_save_create_results u t w :
  create_results (after_save u t w) = create_results w.
Proof. unfold after_save. by destruct (db_ok w). Qed.

Lemma after_save_run_results u t w : run_results (after_save u t w) = run_results w.
Proof. unfold after_save. by destruct (db_ok w). Qed.

Lemma after_save_list_results u t w : list_results (after_save u t w) = list_results w.
Proof. unfold after_save. by destruct (db_ok w). Qed.
Opaque after_save.

(** X4. [save_thread] for one user never raises and touches neither the
    cache entry nor the row of another user, nor [active_threads]. *)
Theorem save_thread_frame (u t v : string) (w : World) :
  v ≠ u →
  (save_thread u t w).1 = Normal tt
  ∧ thread_cache (save_thread u t w).2 !! v = thread_cache w !! v
  ∧ user_threads (save_thread u t w).2 !! v = user_threads w !! v
  ∧ active_threads (save_thread u t w).2 = active_threads w.
Proof.
  intros Hne. rewrite save_thread_run. simpl.
  rewrite after_save_cache, after_save_table, after_save_active.
  split; [done |]. split; [by rewrite lookup_insert_ne |]. split; [| done].
  destruct (db_ok w); [by rewrite lookup_insert_ne | done].
Qed.

(** X5. After [save_thread(u, t)], whether the upsert committed or not,
    [get_thread_id(u)] gives [t] from the cache: no statement is sent to
    the database and nothing changes. *)
Theorem save_then_get (u t : string) (w : World) :
  get_thread_id u (save_thread u t w).2
  = (Normal (Some t), (save_thread u t w).2).
Proof.
  rewrite save_thread_run. simpl. unfold get_thread_id. unfold_m.
  by rewrite after_save_cache, lookup_insert_eq.
Qed.

(** X6. [get_thread_id], when it returns, has not changed the table nor
    [active_threads]; the cache then holds what it returned; it returns
    [None] only when neither the cache nor the table has the user, and on a
    cache miss it returns the thread of the row. *)
Theorem get_thread_id_result (u : string) (w w' : World) (r : option string) :
  get_thread_id u w = (Normal r, w') →
  user_threads w' = user_threads w
  ∧ active_threads w' = active_threads w
  ∧ thread_cache w' !! u = r
  ∧ (r = None → thread_cache w !! u = None ∧ user_threads w !! u = None)
  ∧ (thread_cache w !! u = None → r = fst <$> user_threads w !! u).
Proof.
  unfold get_thread_id, db_execute. unfold_m.
  destruct (thread_cache w !! u) as [t|] eqn:Hcache; simpl.
  - intros [= <- <-]. by rewrite Hcache.
  - destruct (head (db_faults w)) as [[]|]; simpl; try done;
      destruct (user_threads w !! u) as [[t lu]|] eqn:Hrow; simpl;
      intros [= <- <-]; simpl; rewrite ?lookup_insert_eq; done.
Qed.

Lemma threads_create_fails w :
  default None (head (create_results w)) = None →
  threads_create w
  = (Raised "thread creation failed",
     log (ThreadsCreate None) (set_create_results (tail (create_results w)) w)).
Proof.
  intros Hc. unfold threads_create.
  by destruct (create_results w) as [|[t|] cs].
Qed.

(** X7. When the backend cannot create the thread of a new user, the
    exception leaves [handle_user_message]: the user is sent nothing, and
    cache, table and [active_threads] are as before. *)
Theorem new_user_creation_fails (m : Message) (w : World) :
  from_bot m = false → is_dm m = true →
  thread_cache w !! author_id m = None →
  user_threads w !! author_id m = None →
  store_available 2 w = true →
  default None (head (create_results w)) = None →
  ∃ e w',
    handle_user_message m w = (Raised e, w')
    ∧ trace w' = trace w ++ [DbUserLookup (author_id m) (author_name m)
                               (author_display_name m) true;
                             DbSelectThread (author_id m) true;
                             ThreadsCreate None]
    ∧ thread_cache w' = thread_cache w
    ∧ user_threads w' = user_threads w
    ∧ active_threads w' = active_threads w.
Proof.
  intros Hbot Hdm Hcache Hrow Hdb Hcreate.
  destruct (store_available_2 _ Hdb) as [Hok1 Hok2].
  unfold handle_user_message, call. rewrite Hbot, Hdm.
  rewrite (bind_normal _ _ _ _ _ (update_username_lookup_run _ _ _ w)), Hok1.
  set (w1 := log _ _).
  assert (Hres : resolve_thread (author_id m) w1
    = (Raised "thread creation failed",
       log (ThreadsCreate None)
         (set_create_results (tail (create_results w))
            (log (DbSelectThread (author_id m) true)
               (set_db_faults (tail (db_faults w1)) w1))))).
  { unfold resolve_thread, get_thread_id, db_execute. unfold_m. subst w1. simpl.
    rewrite Hcache. unfold db_ok in Hok2. simpl in Hok2.
    destruct (tail (db_faults w)) as [|[] fs]; try done; simpl;
      rewrite Hrow; simpl; unfold threads_create; simpl;
      by destruct (create_results w) as [|[t|] cs]. }
  rewrite (bind_raised _ _ _ _ _ Hres).
  eexists _, _. split; [reflexivity |]. subst w1. simpl.
  by rewrite <- !app_assoc.
Qed.

(** ** More on the cache cleanup *)

(** X8. Whatever the database does, a cleanup round ends normally, keeps
    the table and [active_threads], and adds or changes no cache entry;
    when its query fails the cache is unchanged. *)
Theorem janitor_never_harms (w : World) (u t : string) :
  (reset_thread_cache_cycle w).1 = Normal tt
  ∧ user_threads (reset_thread_cache_cycle w).2 = user_threads w
  ∧ active_threads (reset_thread_cache_cycle w).2 = active_threads w
  ∧ (thread_cache (reset_thread_cache_cycle w).2 !! u = Some t →
     thread_cache w !! u = Some t)
  ∧ (db_ok w = false →
     thread_cache (reset_thread_cache_cycle w).2 = thread_cache w).
Proof.
  rewrite reset_thread_cache_cycle_run. simpl.
  split; [done |]. destruct (db_ok w); simpl.
  - split; [done |]. split; [done |]. split; [| done].
    rewrite evict_lookup. by case_bool_decide.
  - done.
Qed.

(** X9. A second cleanup round right after a round whose query succeeded
    evicts nothing more. *)
Theorem janitor_idempotent (w : World) :
  db_ok w = true →
  thread_cache (reset_thread_cache_cycle (reset_thread_cache_cycle w).2).2
  = thread_cache (reset_thread_cache_cycle w).2.
Proof.
  intros Hdb. rewrite (reset_thread_cache_cycle_run w), Hdb. simpl.
  set (w1 := set_thread_cache _ _).
  assert (Hsame : stale_users w1 = stale_users w) by reflexivity.
  rewrite reset_thread_cache_cycle_run.
  destruct (db_ok w1); simpl; [| done].
  apply map_eq. intros u. rewrite Hsame, !evict_lookup.
  by destruct (bool_decide (u ∈ stale_users w)).
Qed.


(** ** The handler *)

Lemma handler_ignores (m : Message) (w : World) :
  from_bot m = true ∨ is_dm m = false →
  handle_user_message m w = (Normal tt, w).
Proof.
  intros [H|H]; unfold handle_user_message, call; rewrite H; [done |].
  by destruct (from_bot m).
Qed.

Lemma try_except_swallows (body : M unit) (w : World) :
  (try_except body (λ _, ret tt) w).1 = Normal tt
  ∨ (try_except body (λ _, ret tt) w).1 = Returned.
Proof.
  unfold try_except, ret. destruct (body w) as [[[]| |e] w']; simpl; auto.
Qed.

(** X11. For a user whose thread is cached, [handle_user_message] ends
    normally whatever the database, the backend and the attachments do. *)
Theorem handler_never_raises (m : Message) (t : string) (w : World) :
  thread_cache w !! author_id m = Some t → truthy t = true →
  (handle_user_message m w).1 = Normal tt.
Proof.
  intros Hcache Ht. unfold handle_user_message, call.
  destruct (from_bot m); [done |]. destruct (is_dm m); [| done].
  rewrite (bind_normal _ _ _ _ _ (update_username_lookup_run _ _ _ w)).
  set (w1 := log _ _).
  rewrite (bind_normal _ _ _ _ _ (resolve_cache_hit _ t w1 Hcache Ht)).
  destruct (try_except_swallows (process_message m (author_id m) t)
              (after_save (author_id m) t w1)) as [H|H];
    destruct (try_except _ _ _) as [[[]| |e] w']; simpl in *; done.
Qed.

(** X12. No exception leaves the block of the send: it falls through with
    a thread id or it executes [return]. *)
Theorem send_with_retry_never_raises (u t : string) (c : list part)
    (w : World) :
  (send_with_retry u t c w).1 = Returned
  ∨ ∃ t', (send_with_retry u t c w).1 = Normal t'.
Proof.
  unfold send_with_retry, messages_create, threads_create, send_failed, channel_send.
  unfold_m.
  destruct (head (send_results w)) as [[e1|]|]; simpl; eauto.
  destruct (contains NO_THREAD_FOUND e1); simpl; eauto.
  destruct (head (create_results w)) as [[t'|]|]; simpl; eauto.
  rewrite save_thread_run, after_save_send_results. simpl.
  destruct (head (tail (send_results w))) as [[e2|]|]; simpl; eauto.
Qed.

(** X13. When the thread has expired and the creation of a new one fails,
    the block returns: nothing is sent a second time, the user gets the
    failure text, the id is removed from [active_threads], and cache and
    table are unchanged. *)
Theorem stale_and_creation_fails (u t : string) (c : list part) (w : World)
    (e : string) (sends : list (option string)) :
  send_results w = Some e :: sends →
  contains NO_THREAD_FOUND e = true →
  default None (head (create_results w)) = None →
  ∃ w',
    send_with_retry u t c w = (Returned, w')
    ∧ trace w' = trace w ++ [MessagesCreate t c (Some e); ThreadsCreate None;
                             ChannelSend MSG_SEND_FAILED_CALI]
    ∧ active_threads w' = active_threads w ∖ {[t]}
    ∧ thread_cache w' = thread_cache w
    ∧ user_threads w' = user_threads w.
Proof.
  intros Hsend Hstale Hcreate.
  unfold send_with_retry, messages_create, threads_create, send_failed, channel_send.
  unfold_m. rewrite Hsend. simpl. rewrite Hstale. simpl.
  destruct (create_results w) as [|[t'|] cs]; try done; simpl;
    eexists; (split; [reflexivity |]); simpl; by rewrite <- !app_assoc.
Qed.

Lemma send_all_emit chunks w :
  send_all chunks w = (Normal tt, emit (ChannelSend <$> chunks) w).
Proof.
  revert w. induction chunks as [|c cs IH]; intros w; [done |].
  simpl. unfold bind, channel_send, modify. by rewrite IH.
Qed.

Lemma emit_app evs1 evs2 w : emit (evs1 ++ evs2) w = emit evs2 (emit evs1 w).
Proof. unfold emit. by rewrite foldl_app. Qed.

Lemma process_message_success m u t w r d :
  attachments m = [] → truthy (content m) = true →
  t ∉ active_threads w →
  default None (head (send_results w)) = None →
  head (run_results w) = Some (Some r) →
  head (list_results w) = Some (Some d) →
  ∃ w',
    process_message m u t w = (Normal tt, w')
    ∧ active_threads w' = active_threads w
    ∧ trace w'
      = trace w ++ [MessagesCreate t [TextPart (content m)] None;
                    RunsCreateAndPoll t true]
          ++ usage_events u t r (db_ok w)
          ++ [MessagesList t true]
          ++ (ChannelSend <$> message_chunks (assistant_reply d)).
Proof.
  intros Hatts Htext Hfree Hsend Hrun Hlist.
  unfold process_message. rewrite Hatts, Htext. simpl.
  unfold send_with_retry, messages_create, runs_create_and_poll, record_usage,
    log_token_usage, db_execute, messages_list, send_long_message, usage_events, db_ok.
  unfold_m. rewrite bool_decide_false by done. simpl.
  assert (Hset : (active_threads w ∪ {[t]}) ∖ {[t]} = active_threads w).
  { apply set_eq. intros x.
    rewrite elem_of_difference, elem_of_union, elem_of_singleton.
    split; [tauto |]. intros Hx. split; [tauto | congruence]. }
  destruct (head (send_results w)) as [[e1|]|]; try done; simpl;
    rewrite Hrun; simpl;
    destruct (run_usage r) as [us|]; simpl;
    try (destruct (head (db_faults w)) as [[]|]; simpl);
    rewrite Hlist; simpl; rewrite send_all_emit;
    eexists; (split; [reflexivity |]);
    rewrite emit_active, emit_trace; simpl; rewrite Hset, <- ?app_assoc; done.
Qed.

(** X14. A text message of a user whose cached thread is not in flight,
    with the send, the run and the list succeeding: the handler sends the
    text to that thread, runs it, logs the usage the run reports, sends
    the reply in chunks, and leaves [active_threads] as it found it. *)
Theorem known_user_is_answered (m : Message) (t : string) (w : World)
    (r : Run) (d : list ThreadMessage) :
  from_bot m = false → is_dm m = true →
  thread_cache w !! author_id m = Some t → truthy t = true →
  t ∉ active_threads w →
  attachments m = [] → truthy (content m) = true →
  default None (head (send_results w)) = None →
  head (run_results w) = Some (Some r) →
  head (list_results w) = Some (Some d) →
  ∃ w' ok1 ok2 ok3,
    handle_user_message m w = (Normal tt, w')
    ∧ active_threads w' = active_threads w
    ∧ trace w'
      = trace w ++ [DbUserLookup (author_id m) (author_name m)
                      (author_display_name m) ok1;
                    DbUpsertThread (author_id m) t ok2;
                    MessagesCreate t [TextPart (content m)] None;
                    RunsCreateAndPoll t true]
          ++ usage_events (author_id m) t r ok3
          ++ [MessagesList t true]
          ++ (ChannelSend <$> message_chunks (assistant_reply d)).
Proof.
  intros Hbot Hdm Hcache Ht Hfree Hatts Htext Hsend Hrun Hlist.
  set (w1 := log (DbUserLookup (author_id m) (author_name m)
                    (author_display_name m) (db_ok w))
               (set_db_faults (tail (db_faults w)) w)).
  destruct (process_message_success m (author_id m) t
              (after_save (author_id m) t w1) r d) as (w' & Hproc & Hact & Htrace);
    try done.
  { by rewrite after_save_active. }
  { by rewrite after_save_send_results. }
  { by rewrite after_save_run_results. }
  { by rewrite after_save_list_results. }
  exists w', (db_ok w), (db_ok w1), (db_ok (after_save (author_id m) t w1)).
  split.
  - unfold handle_user_message, call. rewrite Hbot, Hdm.
    rewrite (bind_normal _ _ _ _ _ (update_username_lookup_run _ _ _ w)).
    fold w1. rewrite (bind_normal _ _ _ _ _ (resolve_cache_hit _ t w1 Hcache Ht)).
    unfold try_except. by rewrite Hproc.
  - rewrite Hact, Htrace, after_save_active, after_save_trace. simpl.
    by rewrite <- !app_assoc.
Qed.

Lemma handle_attachments_rejects atts :
  ∀ cd w,
    Exists (λ a, has_ext ALLOWED_EXTENSIONS (att_ext a) = false) atts →
    ∃ evs, handle_attachments atts cd w = (Returned, emit evs w)
           ∧ Forall input_event evs.
Proof.
  induction atts as [|a rest IH]; intros cd w Hbad.
  - by apply Exists_nil in Hbad.
  - destruct (handle_attachments_run (a :: rest) cd w) as (r & evs & Heq & Hev & Hr & _).
    exists evs. split; [| done]. rewrite Heq. f_equal.
    destruct r as [cd'| |e]; [| done | by destruct (Hr e)].
    exfalso. revert Heq. simpl.
    destruct (has_ext ALLOWED_EXTENSIONS (att_ext a)) eqn:Hallowed; simpl; [| done].
    apply Exists_cons in Hbad as [Hbad | Hbad]; [congruence |].
    unfold bind, modify, channel_send, py_return.
    destruct (has_ext IMAGE_EXTENSIONS (att_ext a));
      destruct (bool_decide (att_status a = 200)); try done.
    + destruct (att_upload a) as [file_id|]; [| done].
      destruct (IH (cd ++ [ImageFilePart file_id; ImageFilePart file_id])
                  (log (FilesCreate (att_filename a) (Some file_id)) w) Hbad)
        as (evs' & -> & _). done.
    + destruct (truthy (att_text a)).
      * destruct (IH (cd ++ [TextPart (att_text a)]) w Hbad) as (evs' & -> & _). done.
      * simpl.
        destruct (IH cd (log (ChannelSend MSG_NO_CONTENT) w) Hbad) as (evs' & -> & _).
        done.
Qed.

(** X15. A message with an attachment of a type that is not allowed is not
    processed: wherever the attachment stands, the handler returns after
    uploads and notices only; nothing is sent to the thread and
    [active_threads] is not touched. *)
Theorem unsupported_attachment_stops (m : Message) (u t : string) (w : World) :
  Exists (λ a, has_ext ALLOWED_EXTENSIONS (att_ext a) = false) (attachments m) →
  ∃ evs,
    process_message m u t w = (Returned, emit evs w)
    ∧ Forall input_event evs.
Proof.
  intros Hbad. unfold process_message.
  destruct (handle_attachments_rejects (attachments m)
              (if truthy (content m) then [TextPart (content m)] else []) w Hbad)
    as (evs & Heq & Hev).
  exists evs. split; [| done]. by rewrite (bind_returned _ _ _ _ Heq).
Qed.

(** X16. When every attachment is accepted, nothing is said to the user and
    [content_data] grows, in the order of the attachments, by the text of
    each document and by two image parts per image; only the uploads of
    the images are seen outside. *)
Theorem accepted_attachments (atts : list Attachment) (cd : list part) (w : World) :
  Forall accepted atts →
  handle_attachments atts cd w
  = (Normal (cd ++ flat_map attachment_parts atts),
     emit (flat_map attachment_events atts) w).
Proof.
  revert cd w. induction atts as [|a rest IH]; intros cd w Hok.
  - simpl. by rewrite app_nil_r.
  - apply Forall_cons in Hok as [(Hallowed & Hstatus & Hgood) Hrest].
    simpl. unfold attachment_parts, attachment_events in *.
    rewrite Hallowed, Hstatus. simpl.
    destruct (has_ext IMAGE_EXTENSIONS (att_ext a)).
    + destruct Hgood as [file_id Hup]. rewrite Hup.
      unfold bind, modify. rewrite (IH _ _ Hrest). simpl.
      by rewrite <- app_assoc.
    + rewrite Hgood, (IH _ _ Hrest). by rewrite <- app_assoc.
Qed.

Lemma store_available_3 w :
  store_available 3 w = true →
  db_ok w = true
  ∧ db_ok (set_db_faults (tail (db_faults w)) w) = true
  ∧ db_ok (set_db_faults (tail (tail (db_faults w))) w) = true.
Proof.
  unfold store_available, db_ok.
  by destruct (db_faults w) as [|[] [|[] [|[] fs]]].
Qed.

(** X17. The thread is resolved before the input is looked at: an empty
    message of a new user still creates a thread at the backend and
    stores it, and only then gets the notice about the missing input. *)
Theorem empty_message_still_creates_thread (m : Message) (t : string)
    (creates : list (option string)) (w : World) :
  from_bot m = false → is_dm m = true →
  content m = "" → attachments m = [] →
  thread_cache w !! author_id m = None →
  user_threads w !! author_id m = None →
  store_available 3 w = true →
  create_results w = Some t :: creates →
  ∃ w',
    handle_user_message m w = (Normal tt, w')
    ∧ trace w' = trace w ++ [DbUserLookup (author_id m) (author_name m)
                               (author_display_name m) true;
                             DbSelectThread (author_id m) true;
                             ThreadsCreate (Some t);
                             DbUpsertThread (author_id m) t true;
                             ChannelSend MSG_NO_INPUT]
    ∧ user_threads w' !! author_id m = Some (t, clock w)
    ∧ active_threads w' = active_threads w.
Proof.
  intros Hbot Hdm Htext Hatts Hcache Hrow Hdb Hcreate.
  destruct (store_available_3 _ Hdb) as (Hok1 & Hok2 & Hok3).
  unfold handle_user_message, call. rewrite Hbot, Hdm.
  rewrite (bind_normal _ _ _ _ _ (update_username_lookup_run _ _ _ w)), Hok1.
  set (w1 := log _ _).
  set (w2 := log (ThreadsCreate (Some t))
               (set_create_results creates
                  (log (DbSelectThread (author_id m) true)
                     (set_db_faults (tail (db_faults w1)) w1)))).
  assert (Hres : resolve_thread (author_id m) w1
                 = (Normal t, after_save (author_id m) t w2)).
  { unfold resolve_thread, get_thread_id, threads_create, db_execute. unfold_m.
    subst w2 w1. simpl. rewrite Hcache. unfold db_ok in Hok2. simpl in Hok2.
    destruct (tail (db_faults w)) as [|[] fs]; try done; simpl;
      rewrite Hrow; simpl; rewrite Hcreate; simpl; by rewrite save_thread_run. }
  rewrite (bind_normal _ _ _ _ _ Hres).
  unfold try_except, process_message. rewrite Hatts, Htext. simpl.
  unfold bind, channel_send, modify, py_return.
  eexists. split; [reflexivity |]. simpl.
  rewrite after_save_trace, after_save_table, after_save_active.
  assert (Hok : db_ok w2 = true) by exact Hok3.
  rewrite Hok, lookup_insert_eq. subst w2 w1. simpl.
  by rewrite <- !app_assoc.
Qed.

(** ** The roles of the bot and the gate *)

Lemma add_role_names_spec (roles : list string) (acc : gset string) (r : string) :
  r ∈ add_role_names roles acc ↔ r ∈ acc ∨ (r ≠ EVERYONE ∧ r ∈ roles).
Proof.
  unfold add_role_names. revert acc.
  induction roles as [|name roles IH]; intros acc; simpl.
  - split; [auto |]. intros [H|[_ H]]; [done | by apply elem_of_nil in H].
  - rewrite IH, elem_of_cons. case_bool_decide as Hname.
    + rewrite elem_of_union, elem_of_singleton. split.
      * intros [[H| ->]|[H1 H2]]; auto.
      * intros [H|[H1 [-> |H2]]]; auto.
    + subst name. split.
      * intros [H|[H1 H2]]; auto.
      * intros [H|[H1 [-> |H2]]]; auto. done.
Qed.

Lemma fold_bot_roles_spec (bot_id : string) (guilds : list Guild)
    (acc : gset string) (r : string) :
  r ∈ foldl (λ acc guild,
               match guild_members guild !! bot_id with
               | Some roles => add_role_names roles acc
               | None => acc
               end) acc guilds
  ↔ r ∈ acc
    ∨ (r ≠ EVERYONE
       ∧ ∃ guild roles, guild ∈ guilds
                        ∧ guild_members guild !! bot_id = Some roles ∧ r ∈ roles).
Proof.
  revert acc. induction guilds as [|g guilds IH]; intros acc; simpl.
  - split; [auto |]. intros [H|(_ & g & roles & H & _)]; [done |].
    by apply elem_of_nil in H.
  - rewrite IH. destruct (guild_members g !! bot_id) as [roles|] eqn:Hg.
    + rewrite add_role_names_spec. split.
      * intros [[H|[H1 H2]]|(H1 & g' & roles' & Hin & Hm & Hr)]; [auto | |].
        -- right. split; [done |]. exists g, roles. by rewrite elem_of_cons; auto.
        -- right. split; [done |]. exists g', roles'. rewrite elem_of_cons. auto.
      * intros [H|(H1 & g' & roles' & Hin & Hm & Hr)]; [auto |].
        apply elem_of_cons in Hin as [-> |Hin].
        -- rewrite Hg in Hm. injection Hm as <-. auto.
        -- right. split; [done |]. by exists g', roles'.
    + split.
      * intros [H|(H1 & g' & roles' & Hin & Hm & Hr)]; [auto |].
        right. split; [done |]. exists g', roles'. rewrite elem_of_cons. auto.
      * intros [H|(H1 & g' & roles' & Hin & Hm & Hr)]; [auto |].
        apply elem_of_cons in Hin as [-> |Hin]; [congruence |].
        right. split; [done |]. by exists g', roles'.
Qed.

(** X18. After [update_bot_roles], [BOT_ROLES] holds exactly the names,
    other than [@everyone], of the roles the bot has in some server. *)
Theorem update_bot_roles_spec (bot_id : string) (guilds : list Guild) (r : string) :
  r ∈ update_bot_roles bot_id guilds
  ↔ r ≠ EVERYONE
    ∧ ∃ guild roles, guild ∈ guilds
                     ∧ guild_members guild !! bot_id = Some roles ∧ r ∈ roles.
Proof.
  unfold update_bot_roles. rewrite fold_bot_roles_spec.
  split; [intros [H|H]; [by apply not_elem_of_empty in H | done] | auto].
Qed.

Lemma nonempty_intersection (X Y : gset string) :
  X ∩ Y ≠ ∅ ↔ ∃ r, r ∈ X ∧ r ∈ Y.
Proof.
  split.
  - intros H. apply set_choose_L in H as [r Hr].
    apply elem_of_intersection in Hr. eauto.
  - intros (r & HX & HY) Hempty.
    assert (Hr : r ∈ X ∩ Y) by (by apply elem_of_intersection).
    rewrite Hempty in Hr. by apply not_elem_of_empty in Hr.
Qed.

(** X19. [on_message] starts the handler exactly for a direct message, not
    from the bot, whose author has, in the first server that knows the
    author, the role Admin or a role that is in [BOT_ROLES]. *)
Theorem on_message_dispatches (bot_id : string) (guilds : list Guild)
    (m : Message) (BOT_ROLES : gset string) (w : World) :
  (on_message bot_id guilds m BOT_ROLES w).1.1 = Dispatched
  ↔ from_bot m = false ∧ is_dm m = true
    ∧ ∃ r, r ∈ first_member_roles guilds (author_id m)
           ∧ (r = "Admin" ∨ r ∈ update_bot_roles bot_id guilds).
Proof.
  unfold on_message.
  destruct (from_bot m); [by split; [| intros [? _]] |].
  destruct (is_dm m); simpl; [| by split; [| intros (_ & ? & _)]].
  case_bool_decide as Hgate; simpl.
  - split; [intros _ | done]. split; [done |]. split; [done |].
    destruct Hgate as [H|H]; apply nonempty_intersection in H as (r & Hr & Hr').
    + exists r. split; [done |]. left. by apply elem_of_singleton in Hr'.
    + exists r. auto.
  - split; [done |]. intros (_ & _ & r & Hr & Hr'). destruct Hgate.
    destruct Hr' as [-> |Hr'].
    + left. apply nonempty_intersection. exists "Admin".
      split; [done |]. by apply elem_of_singleton.
    + right. apply nonempty_intersection. eauto.
Qed.

(** X20. An author with no role but [@everyone] in the first common server,
    or with no common server, is denied: the denial is sent, nothing else
    happens, and [BOT_ROLES] is refreshed. *)
Theorem everyone_grants_nothing (bot_id : string) (guilds : list Guild)
    (m : Message) (BOT_ROLES : gset string) (w : World) :
  from_bot m = false → is_dm m = true →
  first_member_roles guilds (author_id m) ⊆ {[EVERYONE]} →
  on_message bot_id guilds m BOT_ROLES w
  = (Denied, update_bot_roles bot_id guilds, log (ChannelSend MSG_ACCESS_DENIED) w).
Proof.
  intros Hbot Hdm Hroles. unfold on_message. rewrite Hbot, Hdm. simpl.
  rewrite bool_decide_false; [done |].
  intros [H|H]; apply nonempty_intersection in H as (r & Hr & Hr');
    apply Hroles, elem_of_singleton in Hr; subst r.
  - by apply elem_of_singleton in Hr'.
  - apply update_bot_roles_spec in Hr' as [Hne _]. done.
Qed.

(** X21. The roles of the author are taken from the first server that knows
    the author; the servers after it are not consulted. *)
Theorem first_server_decides (before after : list Guild) (guild : Guild)
    (user_id : string) (roles : list string) :
  Forall (λ g, guild_members g !! user_id = None) before →
  guild_members guild !! user_id = Some roles →
  first_member_roles (before ++ guild :: after) user_id = list_to_set roles.
Proof.
  intros Hbefore Hmember. induction Hbefore as [|g before Hg _ IH]; simpl.
  - by rewrite Hmember.
  - by rewrite Hg.
Qed.

(** ** The tables created at start-up *)


Lemma ensure_table_tables like (name : string) (s : Schema) :
  match ensure_table like name s with
  | inl s' => tables s' = tables s
  | inr s' => tables s' = tables s ∨ tables s' = tables s ∪ {[name]}
  end.
Proof.
  unfold ensure_table, schema_execute, schema_failed.
  destruct (head (schema_faults s)) as [[]|]; simpl; try done;
    (destruct (existsb _ _); simpl; [by left |];
     destruct (head (tail (schema_faults s))) as [[]|]; simpl; auto).
Qed.

(** X22. Whatever fails and whatever the patterns match,
    [ensure_token_tracking_table] drops no table and creates none but
    [token_tracking] and [user_lookup]. *)
Theorem ensure_tables_safe (like : string → string → bool) (s : Schema) :
  tables s ⊆ tables (ensure_token_tracking_table like s)
  ∧ tables (ensure_token_tracking_table like s) ⊆ tables s ∪ NEW_TABLES.
Proof.
  unfold ensure_token_tracking_table, NEW_TABLES.
  pose proof (ensure_table_tables like "token_tracking" s) as H1.
  destruct (ensure_table like "token_tracking" s) as [s1|s1].
  - rewrite H1. split; [done |]. apply union_subseteq_l.
  - pose proof (ensure_table_tables like "user_lookup" s1) as H2.
    destruct (ensure_table like "user_lookup" s1) as [s2|s2].
    + rewrite H2. destruct H1 as [-> | ->].
      * split; [done |]. apply union_subseteq_l.
      * split; [apply union_subseteq_l |].
        intros x. rewrite !elem_of_union, !elem_of_singleton. tauto.
    + destruct H2 as [-> | ->]; destruct H1 as [-> | ->];
        (split; intros x; rewrite ?elem_of_union, ?elem_of_singleton; tauto).
Qed.






(** ** The further statements at concrete inputs *)

Lemma chunk_sizes_witness :
  (0 < String.length "hello" ≤ 2000)%nat
  ∧ (1 < length (message_chunks "hello") → String.length "hello" = 2000)%nat.
Proof. apply (chunk_sizes "hello" 0 "hello"). reflexivity. Defined.

Lemma short_text_one_chunk_witness : message_chunks "hello" = ["hello"].
Proof. apply short_text_one_chunk. simpl. lia. Defined.

Lemma save_thread_frame_witness :
  (save_thread "U2" "T9" two_cached).1 = Normal tt
  ∧ thread_cache (save_thread "U2" "T9" two_cached).2 !! "U3"
    = thread_cache two_cached !! "U3"
  ∧ user_threads (save_thread "U2" "T9" two_cached).2 !! "U3"
    = user_threads two_cached !! "U3"
  ∧ active_threads (save_thread "U2" "T9" two_cached).2 = active_threads two_cached.
Proof. apply (save_thread_frame "U2" "T9" "U3" two_cached). discriminate. Defined.

Lemma get_thread_id_result_witness :
  user_threads (get_thread_id "U1" (new_user [])).2 = user_threads (new_user [])
  ∧ active_threads (get_thread_id "U1" (new_user [])).2 = active_threads (new_user [])
  ∧ thread_cache (get_thread_id "U1" (new_user [])).2 !! "U1" = None
  ∧ (@None string = None →
     thread_cache (new_user []) !! "U1" = None ∧ user_threads (new_user []) !! "U1" = None)
  ∧ (thread_cache (new_user []) !! "U1" = None →
     None = fst <$> user_threads (new_user []) !! "U1").
Proof.
  apply (get_thread_id_result "U1" (new_user [])). by_evaluation.
Defined.

Lemma new_user_creation_fails_witness :
  ∃ e w',
    handle_user_message hello (set_create_results [None] (new_user [])) = (Raised e, w')
    ∧ trace w' = trace (set_create_results [None] (new_user []))
                 ++ [DbUserLookup (author_id hello) (author_name hello)
                       (author_display_name hello) true;
                     DbSelectThread (author_id hello) true;
                     ThreadsCreate None]
    ∧ thread_cache w' = thread_cache (set_create_results [None] (new_user []))
    ∧ user_threads w' = user_threads (set_create_results [None] (new_user []))
    ∧ active_threads w' = active_threads (set_create_results [None] (new_user [])).
Proof.
  apply (new_user_creation_fails hello (set_create_results [None] (new_user [])));
    reflexivity.
Defined.

Lemma janitor_never_harms_witness :
  (reset_thread_cache_cycle two_cached).1 = Normal tt
  ∧ user_threads (reset_thread_cache_cycle two_cached).2 = user_threads two_cached
  ∧ active_threads (reset_thread_cache_cycle two_cached).2 = active_threads two_cached
  ∧ (thread_cache (reset_thread_cache_cycle two_cached).2 !! "U3" = Some "T3" →
     thread_cache two_cached !! "U3" = Some "T3")
  ∧ (db_ok two_cached = false →
     thread_cache (reset_thread_cache_cycle two_cached).2 = thread_cache two_cached).
Proof. apply (janitor_never_harms two_cached "U3" "T3"). Defined.

Lemma janitor_idempotent_witness :
  thread_cache (reset_thread_cache_cycle (reset_thread_cache_cycle two_cached).2).2
  = thread_cache (reset_thread_cache_cycle two_cached).2.
Proof. apply (janitor_idempotent two_cached). reflexivity. Defined.


Lemma handler_never_raises_witness :
  (handle_user_message (hello_with [a_program]) (known_user [Some "boom"] [] [])).1
  = Normal tt.
Proof.
  apply (handler_never_raises (hello_with [a_program]) "T1"
           (known_user [Some "boom"] [] [])); reflexivity.
Defined.

Lemma stale_and_creation_fails_witness :
  ∃ w',
    send_with_retry "U1" "T1" [TextPart "hello"] (known_user [Some STALE_ERROR] [None] [])
    = (Returned, w')
    ∧ trace w' = trace (known_user [Some STALE_ERROR] [None] [])
                 ++ [MessagesCreate "T1" [TextPart "hello"] (Some STALE_ERROR);
                     ThreadsCreate None; ChannelSend MSG_SEND_FAILED_CALI]
    ∧ active_threads w' = active_threads (known_user [Some STALE_ERROR] [None] []) ∖ {["T1"]}
    ∧ thread_cache w' = thread_cache (known_user [Some STALE_ERROR] [None] [])
    ∧ user_threads w' = user_threads (known_user [Some STALE_ERROR] [None] []).
Proof.
  apply (stale_and_creation_fails "U1" "T1" [TextPart "hello"]
           (known_user [Some STALE_ERROR] [None] []) STALE_ERROR []); reflexivity.
Defined.

Lemma known_user_is_answered_witness :
  ∃ w' ok1 ok2 ok3,
    handle_user_message hello (known_user [] [] [Some a_run]) = (Normal tt, w')
    ∧ active_threads w' = active_threads (known_user [] [] [Some a_run])
    ∧ trace w'
      = trace (known_user [] [] [Some a_run])
          ++ [DbUserLookup (author_id hello) (author_name hello)
                (author_display_name hello) ok1;
              DbUpsertThread (author_id hello) "T1" ok2;
              MessagesCreate "T1" [TextPart (content hello)] None;
              RunsCreateAndPoll "T1" true]
          ++ usage_events (author_id hello) "T1" a_run ok3
          ++ [MessagesList "T1" true]
          ++ (ChannelSend <$> message_chunks (assistant_reply a_reply)).
Proof.
  apply (known_user_is_answered hello "T1" (known_user [] [] [Some a_run]) a_run a_reply);
    first [reflexivity | apply not_elem_of_empty].
Defined.

Lemma unsupported_attachment_stops_witness :
  ∃ evs,
    process_message (hello_with [a_note; a_program]) "U1" "T1" busy
    = (Returned, emit evs busy)
    ∧ Forall input_event evs.
Proof.
  apply (unsupported_attachment_stops (hello_with [a_note; a_program]) "U1" "T1" busy).
  apply Exists_cons_tl, Exists_cons_hd. reflexivity.
Defined.

Lemma accepted_attachments_witness :
  handle_attachments [a_photo; a_note] [TextPart "hello"] busy
  = (Normal ([TextPart "hello"] ++ flat_map attachment_parts [a_photo; a_note]),
     emit (flat_map attachment_events [a_photo; a_note]) busy).
Proof.
  apply (accepted_attachments [a_photo; a_note] [TextPart "hello"] busy).
  apply Forall_cons_2; [| apply Forall_cons_2; [| apply Forall_nil_2]].
  - split; [reflexivity |]. split; [reflexivity |]. exists "file-1". reflexivity.
  - split; [reflexivity |]. split; reflexivity.
Defined.

Lemma empty_message_still_creates_thread_witness :
  ∃ w',
    handle_user_message nothing (new_user []) = (Normal tt, w')
    ∧ trace w' = trace (new_user [])
                 ++ [DbUserLookup (author_id nothing) (author_name nothing)
                       (author_display_name nothing) true;
                     DbSelectThread (author_id nothing) true;
                     ThreadsCreate (Some "T1");
                     DbUpsertThread (author_id nothing) "T1" true;
                     ChannelSend MSG_NO_INPUT]
    ∧ user_threads w' !! author_id nothing = Some ("T1", clock (new_user []))
    ∧ active_threads w' = active_threads (new_user []).
Proof.
  apply (empty_message_still_creates_thread nothing "T1" [] (new_user [])); reflexivity.
Defined.

Lemma everyone_grants_nothing_witness :
  on_message "BOT" [plaza; annex] (hello_from "U4") ∅ busy
  = (Denied, update_bot_roles "BOT" [plaza; annex],
     log (ChannelSend MSG_ACCESS_DENIED) busy).
Proof.
  apply (everyone_grants_nothing "BOT" [plaza; annex] (hello_from "U4") ∅ busy);
    reflexivity.
Defined.

Lemma first_server_decides_witness :
  first_member_roles ([lobby] ++ plaza :: [annex]) "U4" = list_to_set ["@everyone"].
Proof.
  apply (first_server_decides [lobby] [annex] plaza "U4" ["@everyone"]).
  - apply Forall_cons_2; [reflexivity | apply Forall_nil_2].
  - reflexivity.
Defined.


(** A user the gate admits and one it denies; the start-up on a database
    that has only [user_threads]. *)
Example gate_scenario :
  (on_message "BOT" [plaza; annex] (hello_from "U1") ∅ busy).1.1 = Dispatched
  ∧ (on_message "BOT" [plaza; annex] (hello_from "U4") ∅ busy).1.1 = Denied
  ∧ elements (update_bot_roles "BOT" [plaza; annex]) = ["Helper"].
Proof. split; [| split]; by_evaluation. Qed.

Example start_up_scenario :
  statements (ensure_token_tracking_table like_match fresh_schema)
  = ["SHOW TABLES LIKE 'token_tracking'"; "CREATE TABLE token_tracking";
     "SHOW TABLES LIKE 'user_lookup'"; "CREATE TABLE user_lookup"]
  ∧ "user_threads" ∈ tables (ensure_token_tracking_table like_match fresh_schema).
Proof. split; by_evaluation. Qed.

(** The pattern of the first query matches a table with another name: the
    table [token_tracking] is then not created. *)
Example lookalike_scenario :
  statements (ensure_token_tracking_table like_match lookalike_schema)
  = ["SHOW TABLES LIKE 'token_tracking'";
     "SHOW TABLES LIKE 'user_lookup'"; "CREATE TABLE user_lookup"]
  ∧ "token_tracking" ∉ tables (ensure_token_tracking_table like_match lookalike_schema).
Proof.
  split; [by_evaluation |]. intros Hin.
  apply (bool_decide_pack _) in Hin. vm_compute in Hin. exact Hin.
Qed.
